(** * build_viewer.py: the Assembler and the embedded Bootstrap Resolver

    A shallow embedding of [build_viewer.py]: the Python build step
    ([read_file], [build]) over an explicit file system, and the JavaScript
    start-up code the build step writes into [viewer.html] ([showError],
    [initApp], [handleFile], [loadPastedConfig] and the auto-load sequence of
    the [DOMContentLoaded] listener) over an explicit page state.

    Text is a list of character codes: Unicode code points on the Python
    side, UTF-16 code units on the JavaScript side. *)

From Stdlib Require Import ZArith NArith List String Ascii Lia Bool.
From stdpp Require Import base gmap strings list.

Local Open Scope N_scope.

Abbreviation text := (list N).

(** A literal of the source, as text. *)
Fixpoint txt (s : string) : text :=
  match s with
  | EmptyString => []
  | String c r => N_of_ascii c :: txt r
  end.

(** The double-quote character, for literals that contain one. *)
Definition dq : text := [34].

(** * JSON

    [json.loads] (Python, build time) and [JSON.parse] (JavaScript, run
    time) are library functions; both follow the grammar of RFC 8259.
    Python's decoder additionally accepts the constants [NaN], [Infinity]
    and [-Infinity] by default; the flag [allow_nan] selects that
    extension. *)

Module JSON.

(** The number a literal denotes: [(-1)^negative * mantissa * 10^exponent],
    kept exact; or one of Python's constants. *)
Inductive number : Type :=
| Decimal (negative : bool) (mantissa : N) (exponent : Z)
| NaN
| Infinity (negative : bool).

(** Object members are kept in source order. *)
#[warnings="-register-all"]
Inductive value : Type :=
| Null
| Bool (b : bool)
| Number (n : number)
| String (s : text)
| Array (items : list value)
| Object (members : list (text * value)).

Inductive parsed (A : Type) : Type :=
| Parsed (a : A) (rest : text)
| SyntaxError
| OutOfFuel.
Arguments Parsed {A} a rest.
Arguments SyntaxError {A}.
Arguments OutOfFuel {A}.

Definition is_ws (c : N) : bool :=
  (c =? 32) || (c =? 9) || (c =? 10) || (c =? 13).

Fixpoint skip_ws (s : text) : text :=
  match s with
  | c :: r => if is_ws c then skip_ws r else s
  | [] => []
  end.

Definition is_digit (c : N) : bool := (48 <=? c) && (c <=? 57).

Definition hex_digit (c : N) : option N :=
  if (48 <=? c) && (c <=? 57) then Some (c - 48)
  else if (65 <=? c) && (c <=? 70) then Some (c - 55)
  else if (97 <=? c) && (c <=? 102) then Some (c - 87)
  else None.

Definition hex4 (a b c d : N) : option N :=
  match hex_digit a, hex_digit b, hex_digit c, hex_digit d with
  | Some a, Some b, Some c, Some d => Some (((a * 16 + b) * 16 + c) * 16 + d)
  | _, _, _, _ => None
  end.

(** The character after a backslash, for the escapes of a quote, a
    backslash, a slash, and of b, f, n, r and t. *)
Definition simple_escape (c : N) : option N :=
  if c =? 34 then Some 34
  else if c =? 92 then Some 92
  else if c =? 47 then Some 47
  else if c =? 98 then Some 8
  else if c =? 102 then Some 12
  else if c =? 110 then Some 10
  else if c =? 114 then Some 13
  else if c =? 116 then Some 9
  else None.

(** The characters of a string, after its opening quote, up to and
    including the closing quote. Control characters must be escaped. *)
Fixpoint parse_chars (s : text) : parsed text :=
  match s with
  | [] => SyntaxError
  | c :: r =>
    if c =? 34 then Parsed [] r
    else if c =? 92 then
      match r with
      | [] => SyntaxError
      | e :: r1 =>
        if e =? 117 then
          match r1 with
          | h1 :: h2 :: h3 :: h4 :: r2 =>
            match hex4 h1 h2 h3 h4 with
            | Some u =>
              match parse_chars r2 with
              | Parsed cs r3 => Parsed (u :: cs) r3
              | err => err
              end
            | None => SyntaxError
            end
          | _ => SyntaxError
          end
        else
          match simple_escape e with
          | Some u =>
            match parse_chars r1 with
            | Parsed cs r3 => Parsed (u :: cs) r3
            | err => err
            end
          | None => SyntaxError
          end
      end
    else if c <? 32 then SyntaxError
    else
      match parse_chars r with
      | Parsed cs r3 => Parsed (c :: cs) r3
      | err => err
      end
  end.

(** A maximal run of decimal digits: its value, its length, the rest. *)
Fixpoint digits (acc : N) (n : nat) (s : text) : N * nat * text :=
  match s with
  | c :: r => if is_digit c then digits (acc * 10 + (c - 48)) (S n) r else (acc, n, s)
  | [] => (acc, n, [])
  end.

(** The integer part after an optional minus sign: [0], or a run of
    digits that does not start with [0]. *)
Definition parse_int (s : text) : parsed N :=
  match s with
  | c :: r =>
    if c =? 48 then Parsed 0 r
    else if is_digit c then let '(m, _, r1) := digits 0 0%nat s in Parsed m r1
    else SyntaxError
  | [] => SyntaxError
  end.

(** An optional fraction: a dot and at least one digit. The mantissa is
    extended by the digits and the exponent lowered by their number. *)
Definition parse_frac (m : N) (s : text) : parsed (N * Z) :=
  match s with
  | c :: r =>
    if c =? 46 then
      match digits m 0%nat r with
      | (_, O, _) => SyntaxError
      | (m1, k, r1) => Parsed (m1, (- Z.of_nat k)%Z) r1
      end
    else Parsed (m, 0%Z) s
  | [] => Parsed (m, 0%Z) []
  end.

(** An optional exponent: [e] or [E], an optional sign, at least one digit. *)
Definition parse_exp (s : text) : parsed Z :=
  match s with
  | c :: r =>
    if (c =? 101) || (c =? 69) then
      let '(neg, r0) :=
        match r with
        | sg :: r' => if sg =? 45 then (true, r') else if sg =? 43 then (false, r') else (false, r)
        | [] => (false, r)
        end in
      match digits 0 0%nat r0 with
      | (_, O, _) => SyntaxError
      | (e, _, r1) => Parsed (if neg then (- Z.of_N e)%Z else Z.of_N e) r1
      end
    else Parsed 0%Z s
  | [] => Parsed 0%Z []
  end.

Definition parse_number (s : text) : parsed number :=
  let '(neg, s0) :=
    match s with
    | c :: r => if c =? 45 then (true, r) else (false, s)
    | [] => (false, s)
    end in
  match parse_int s0 with
  | Parsed m r1 =>
    match parse_frac m r1 with
    | Parsed (m1, e1) r2 =>
      match parse_exp r2 with
      | Parsed e2 r3 => Parsed (Decimal neg m1 (e1 + e2)%Z) r3
      | SyntaxError => SyntaxError
      | OutOfFuel => OutOfFuel
      end
    | SyntaxError => SyntaxError
    | OutOfFuel => OutOfFuel
    end
  | SyntaxError => SyntaxError
  | OutOfFuel => OutOfFuel
  end.

(** [strip_prefix p s] is the rest of [s] after the literal [p]. *)
Fixpoint strip_prefix (p s : text) : option text :=
  match p, s with
  | [], _ => Some s
  | a :: p', b :: s' => if a =? b then strip_prefix p' s' else None
  | _ :: _, [] => None
  end.

(** The fixed literals. *)
Definition keywords (allow_nan : bool) : list (text * value) :=
  [ (txt "null", Null); (txt "true", Bool true); (txt "false", Bool false) ]
  ++ (if allow_nan
      then [ (txt "NaN", Number NaN);
             (txt "Infinity", Number (Infinity false));
             (txt "-Infinity", Number (Infinity true)) ]
      else []).

Fixpoint parse_keyword (kws : list (text * value)) (s : text) : option (value * text) :=
  match kws with
  | [] => None
  | (k, v) :: kws' =>
    match strip_prefix k s with
    | Some r => Some (v, r)
    | None => parse_keyword kws' s
    end
  end.

Section Grammar.

Variable allow_nan : bool.

(** A value at the head of [s] (no leading white space), the elements of
    an array after its first [[], and the members of an object after its
    [{]. *)
Fixpoint parse_value (fuel : nat) (s : text) {struct fuel} : parsed value :=
  match fuel with
  | O => OutOfFuel
  | S fuel' =>
    match s with
    | [] => SyntaxError
    | c :: r =>
      if c =? 34 then
        match parse_chars r with
        | Parsed cs r1 => Parsed (String cs) r1
        | SyntaxError => SyntaxError
        | OutOfFuel => OutOfFuel
        end
      else if c =? 91 then
        match skip_ws r with
        | c1 :: r1 =>
          if c1 =? 93 then Parsed (Array []) r1
          else
            match parse_elements fuel' (c1 :: r1) with
            | Parsed vs r2 => Parsed (Array vs) r2
            | SyntaxError => SyntaxError
            | OutOfFuel => OutOfFuel
            end
        | [] => SyntaxError
        end
      else if c =? 123 then
        match skip_ws r with
        | c1 :: r1 =>
          if c1 =? 125 then Parsed (Object []) r1
          else
            match parse_members fuel' (c1 :: r1) with
            | Parsed ms r2 => Parsed (Object ms) r2
            | SyntaxError => SyntaxError
            | OutOfFuel => OutOfFuel
            end
        | [] => SyntaxError
        end
      else
        match parse_keyword (keywords allow_nan) s with
        | Some (v, r1) => Parsed v r1
        | None =>
          match parse_number s with
          | Parsed n r1 => Parsed (Number n) r1
          | SyntaxError => SyntaxError
          | OutOfFuel => OutOfFuel
          end
        end
    end
  end

with parse_elements (fuel : nat) (s : text) {struct fuel} : parsed (list value) :=
  match fuel with
  | O => OutOfFuel
  | S fuel' =>
    match parse_value fuel' s with
    | Parsed v r =>
      match skip_ws r with
      | c :: r1 =>
        if c =? 44 then
          match parse_elements fuel' (skip_ws r1) with
          | Parsed vs r2 => Parsed (v :: vs) r2
          | err => err
          end
        else if c =? 93 then Parsed [v] r1
        else SyntaxError
      | [] => SyntaxError
      end
    | SyntaxError => SyntaxError
    | OutOfFuel => OutOfFuel
    end
  end

with parse_members (fuel : nat) (s : text) {struct fuel} : parsed (list (text * value)) :=
  match fuel with
  | O => OutOfFuel
  | S fuel' =>
    match s with
    | c :: r =>
      if c =? 34 then
        match parse_chars r with
        | Parsed k r1 =>
          match skip_ws r1 with
          | c1 :: r2 =>
            if c1 =? 58 then
              match parse_value fuel' (skip_ws r2) with
              | Parsed v r3 =>
                match skip_ws r3 with
                | c2 :: r4 =>
                  if c2 =? 44 then
                    match parse_members fuel' (skip_ws r4) with
                    | Parsed ms r5 => Parsed ((k, v) :: ms) r5
                    | err => err
                    end
                  else if c2 =? 125 then Parsed [(k, v)] r4
                  else SyntaxError
                | [] => SyntaxError
                end
              | SyntaxError => SyntaxError
              | OutOfFuel => OutOfFuel
              end
            else SyntaxError
          | [] => SyntaxError
          end
        | SyntaxError => SyntaxError
        | OutOfFuel => OutOfFuel
        end
      else SyntaxError
    | [] => SyntaxError
    end
  end.

(** A whole document: one value with optional white space around it.
    The fuel is enough for every input ([parse_total] below). *)
Definition fuel_for (s : text) : nat := (2 * length s + 2)%nat.

Definition parse_document (s : text) : parsed value :=
  let s0 := skip_ws s in
  match parse_value (fuel_for s0) s0 with
  | Parsed v r =>
    match skip_ws r with
    | [] => Parsed v []
    | _ :: _ => SyntaxError
    end
  | SyntaxError => SyntaxError
  | OutOfFuel => OutOfFuel
  end.

Definition decode (s : text) : option value :=
  match parse_document s with
  | Parsed v _ => Some v
  | _ => None
  end.

End Grammar.

(** A result that is not [OutOfFuel] and, when it is a value, leaves less
    text than it was given. *)
Definition progress {A} (s : text) (x : parsed A) : Prop :=
  match x with
  | Parsed _ r => (length r < length s)%nat
  | SyntaxError => True
  | OutOfFuel => False
  end.

End JSON.

(** [JSON.parse(text)]: [Some] value, or [None] for a thrown SyntaxError. *)
Definition JSON_parse : text -> option JSON.value := JSON.decode false.

(** * The limits of the Python interpreter

    [json.loads] accepts less than its grammar: the decoder recurses
    once for each level of nesting and raises RecursionError beyond the
    interpreter's limit, and it converts an integer literal with [int],
    which raises ValueError on more digits than
    [sys.get_int_max_str_digits()] (0 lifts that limit). Both limits
    belong to the interpreter that runs the script and are taken with
    it. *)

Module Python.

Record interpreter : Type := Interpreter {
  max_nesting : nat;
  int_max_str_digits : nat
}.

(** How deep the arrays and objects of a value nest. *)
Fixpoint depth (v : JSON.value) : nat :=
  match v with
  | JSON.Array items => S (list_max (map depth items))
  | JSON.Object members => S (list_max (map (fun kv => depth (snd kv)) members))
  | _ => 0%nat
  end.

(** The number of digits of the integer literal at the head of [s]; 0
    when the number there has a fraction or an exponent, which makes it
    a float. *)
Definition int_literal_digits (s : text) : nat :=
  let s0 :=
    match s with
    | c :: r => if c =? 45 then r else s
    | [] => s
    end in
  match JSON.parse_int s0 with
  | JSON.Parsed _ r1 =>
    match r1 with
    | c :: _ =>
      if (c =? 46) || (c =? 101) || (c =? 69) then 0%nat
      else (length s0 - length r1)%nat
    | [] => (length s0 - length r1)%nat
    end
  | _ => 0%nat
  end.

(** The longest integer literal of a text: strings are stepped over,
    a number is measured where it starts, any other character is
    passed. *)
Fixpoint longest_int_literal (fuel : nat) (s : text) : nat :=
  match fuel with
  | O => 0%nat
  | S fuel' =>
    match s with
    | [] => 0%nat
    | c :: r =>
      if c =? 34 then
        match JSON.parse_chars r with
        | JSON.Parsed _ rest => longest_int_literal fuel' rest
        | _ => 0%nat
        end
      else if JSON.is_digit c || (c =? 45) then
        match JSON.parse_number s with
        | JSON.Parsed _ rest =>
          Nat.max (int_literal_digits s) (longest_int_literal fuel' rest)
        | _ => longest_int_literal fuel' r
        end
      else longest_int_literal fuel' r
    end
  end.

(** A character the scan passes over: no quote, no digit, no minus. *)
Definition plain (c : N) : bool :=
  negb (c =? 34) && negb (JSON.is_digit c || (c =? 45)).

(** A text of the grammar, and its value, that the decoder gets through. *)
Definition within_limits (py : interpreter) (doc : text) (v : JSON.value) : bool :=
  (depth v <=? max_nesting py)%nat
  && ((int_max_str_digits py =? 0)%nat
      || (longest_int_literal (length doc) doc <=? int_max_str_digits py)%nat).

End Python.

(** [json.loads(text)] with Python's defaults, under an interpreter:
    [None] when it raises. *)
Definition json_loads (py : Python.interpreter) (doc : text) : option JSON.value :=
  match JSON.decode true doc with
  | Some v => if Python.within_limits py doc v then Some v else None
  | None => None
  end.

(** * Effects

    Both halves of the program are sequential code that updates a state
    and may raise: Python statements over the file system and standard
    output, JavaScript statements over the page. [eff S E A] is a
    computation over a state [S] that ends normally with an [A] or throws
    an [E]. *)

Inductive completion (E A : Type) : Type :=
| Normal (a : A)
| Throw (e : E).
Arguments Normal {E A} a.
Arguments Throw {E A} e.

Definition eff (S E A : Type) : Type := S -> completion E A * S.

Section Eff.

Context {S E : Type}.

Definition ret {A} (a : A) : eff S E A := fun s => (Normal a, s).

Definition bind {A B} (m : eff S E A) (k : A -> eff S E B) : eff S E B :=
  fun s =>
    match m s with
    | (Normal a, s') => k a s'
    | (Throw e, s') => (Throw e, s')
    end.

Definition throw {A} (e : E) : eff S E A := fun s => (Throw e, s).

(** [try: m except/catch e: h e]. *)
Definition try_catch {A} (m : eff S E A) (h : E -> eff S E A) : eff S E A :=
  fun s =>
    match m s with
    | (Normal a, s') => (Normal a, s')
    | (Throw e, s') => h e s'
    end.

Definition modify (f : S -> S) : eff S E unit := fun s => (Normal tt, f s).

End Eff.

Declare Scope eff_scope.
Delimit Scope eff_scope with eff.
Notation "x <- m ;; k" := (bind m (fun x => k))
  (at level 100, m at next level, k at level 200, right associativity) : eff_scope.
Notation "m ;;; k" := (bind m (fun _ => k))
  (at level 100, k at level 200, right associativity) : eff_scope.

(** * The Assembler: the Python build step *)

Module Build.

Local Open Scope eff_scope.

(** What a path names: a file that [open(path, 'r', encoding='utf-8')]
    and [f.read()] return the text of, or something they raise on (a
    directory, a file without read permission, bytes that are not UTF-8).
    A path that names nothing is absent from the map. *)
Inductive node : Type :=
| File (content : text)
| Unreadable.

(** [JSONLoadsError doc] is the exception [json.loads(doc)] raises: a
    JSONDecodeError, or the RecursionError or ValueError of the
    interpreter's limits. [WriteError path] is the exception of
    [open(path, 'w')] on a path that cannot be written (a directory, a
    file or a directory without write permission). *)
Inductive exn : Type :=
| FileNotFoundError (path : string)
| ReadError (path : string)
| JSONLoadsError (doc : text)
| WriteError (path : string).

(** A line of standard output. [ErrorReadingConfig e] is the line
    [print(f"Error reading config: {e}")] writes. *)
Inductive output : Type :=
| Line (s : text)
| ErrorReadingConfig (e : exn).

(** The file system, what has been printed, the paths that cannot be
    opened for writing, and the interpreter. *)
Record world : Type := World {
  files : gmap string node;
  stdout : list output;
  unwritable : gset string;
  python : Python.interpreter
}.

Abbreviation py := (eff world exn).

Definition print (o : output) : py unit :=
  modify (fun w => World (files w) (stdout w ++ [o]) (unwritable w) (python w)).

Definition read_file (path : string) : py text :=
  fun w =>
    match files w !! path with
    | Some (File content) => (Normal content, w)
    | Some Unreadable => (Throw (ReadError path), w)
    | None => (Throw (FileNotFoundError path), w)
    end.

(** [with open(path, 'w', encoding='utf-8') as f: f.write(content)]:
    [open] raises on a path that cannot be written and leaves it as it
    is. *)
Definition write_file (path : string) (content : text) : py unit :=
  fun w =>
    if decide (path ∈ unwritable w) then (Throw (WriteError path), w)
    else
      (Normal tt,
       World (<[path := File content]> (files w)) (stdout w) (unwritable w) (python w)).

(** [json.loads(doc)], for its exception only: the value is dropped. *)
Definition json_loads_stmt (doc : text) : py unit :=
  fun w =>
    match json_loads (python w) doc with
    | Some _ => (Normal tt, w)
    | None => (Throw (JSONLoadsError doc), w)
    end.

(** [os.path.join] on POSIX paths. *)
Definition starts_with_slash (p : string) : bool :=
  match p with
  | String.String c _ => Ascii.eqb c "/"
  | EmptyString => false
  end.

Fixpoint ends_with_slash (p : string) : bool :=
  match p with
  | EmptyString => false
  | String.String c EmptyString => Ascii.eqb c "/"
  | String.String _ r => ends_with_slash r
  end.

Definition path_join (a b : string) : string :=
  if starts_with_slash b then b
  else if String.eqb a "" || ends_with_slash a then a +:+ b
  else a +:+ "/" +:+ b.

(** A newline, and a source literal in which a backquote stands for a
    double quote. *)
Definition nl : text := [10].

Definition quoted (s : string) : text :=
  map (fun c => if c =? 96 then 34 else c) (txt s).

(** From the document type to the start of the inlined stylesheet. *)
Definition template_head : text := quoted "<!DOCTYPE html>
<html lang=`en`>
<head>
    <meta charset=`UTF-8`>
    <meta name=`viewport` content=`width=device-width, initial-scale=1.0`>
    <title>GenomeData Table Viewer</title>
    <meta name=`description` content=`Research-grade viewer for GenomeData tables.`>
    
    <!-- Bootstrap Icons (CDN) -->
    <link rel=`stylesheet` href=`https://cdn.jsdelivr.net/npm/bootstrap-icons@1.11.0/font/bootstrap-icons.css`>
    
    <!-- Fonts -->
    <link href=`https://fonts.googleapis.com/css2?family=Inter:wght@400;500;600;700&family=JetBrains+Mono:wght@400;500&display=swap` rel=`stylesheet`>

    <style>
        ".

(** The setup-screen styles, the setup markup, and the start of the script up to the embedded default. *)
Definition template_setup : text := quoted "
        
        /* Setup Screen Styles (Inline for immediate rendering) */
        #setup-screen {
            position: fixed;
            top: 0;
            left: 0;
            width: 100%;
            height: 100%;
            background: var(--ts-bg-page);
            display: flex;
            align-items: center;
            justify-content: center;
            z-index: 2000;
        }
        
        .setup-card {
            background: var(--ts-bg-card);
            padding: 2rem;
            border-radius: var(--ts-radius-lg);
            box-shadow: var(--ts-shadow-xl);
            max-width: 500px;
            width: 90%;
            text-align: center;
            border: 1px solid var(--ts-border);
        }
        
        .drop-zone {
            border: 2px dashed var(--ts-border);
            border-radius: var(--ts-radius-md);
            padding: 2rem;
            margin: 1rem 0;
            transition: all 0.2s;
            background: var(--ts-bg-input);
            cursor: pointer;
        }
        
        .drop-zone:hover {
            border-color: var(--ts-primary);
            background: var(--ts-bg-hover);
        }
        
        .drop-zone.dragover {
            border-color: var(--ts-primary);
            background: var(--ts-primary-muted);
        }
    </style>
</head>
<body>
    
    <!-- Setup / Loading Screen -->
    <div id=`setup-screen`>
        <div class=`setup-card`>
            <h2 style=`margin-top:0; color:var(--ts-primary)`>Genome Data Viewer</h2>
            <p style=`color:var(--ts-text-muted)`>Research Edition</p>
            
            <div id=`setup-drop-zone` class=`drop-zone`>
                <i class=`bi bi-file-earmark-code` style=`font-size: 2rem; color: var(--ts-text-dim)`></i>
                <p style=`margin:0.5rem 0 0`>Drag & Drop Config File</p>
            </div>
            
            <div style=`margin: 1rem 0; position: relative;`>
                <hr style=`border: 0; border-top: 1px solid var(--ts-border);`>
                <span style=`position: absolute; top: -10px; left: 50%; transform: translateX(-50%); background: var(--ts-bg-card); padding: 0 10px; color: var(--ts-text-dim); font-size: 0.75rem;`>OR</span>
            </div>
            
            <button class=`ts-btn ts-btn-primary` onclick=`document.getElementById('config-input').click()`>
                Load Local Config
            </button>
            <input type=`file` id=`config-input` accept=`.json` style=`display:none`>
            
            <div style=`margin-top: 1rem`>
                <textarea id=`config-paste` class=`ts-input` rows=`3` placeholder=`Paste JSON config here...` style=`width:100%; resize: vertical;`></textarea>
            </div>
            <button class=`ts-btn` style=`margin-top: 0.5rem; width: 100%` onclick=`loadPastedConfig()`>Load JSON</button>
             <p id=`setup-error` style=`color: var(--ts-danger); font-size: 0.8rem; margin-top: 1rem; display: none;`></p>
        </div>
    </div>

    <!-- Main App Container -->
    <div id=`app` class=`ts-app`></div>

    <script>
        // 1. Embedded Default Config
        const DEFAULT_CONFIG = ".

(** Between the embedded default and the bundled modules. *)
Definition template_bundle : text := quoted ";
        
        // 2. Bundled Application Logic
        ".

(** The initialization logic and the end of the document. *)
Definition template_init : text := quoted "

        // 3. Initialization Logic
        document.addEventListener('DOMContentLoaded', async () => {
            const setupScreen = document.getElementById('setup-screen');
            const fileInput = document.getElementById('config-input');
            const dropZone = document.getElementById('setup-drop-zone');
            const pasteArea = document.getElementById('config-paste');
            const errorMsg = document.getElementById('setup-error');
            
            function showError(msg) {
                errorMsg.textContent = msg;
                errorMsg.style.display = 'block';
            }

            async function initApp(config) {
                try {
                    const appContainer = document.getElementById('app');
                    // Initialize renderer
                    window.renderer = new TableRenderer(config);
                    await window.renderer.render(appContainer);
                    
                    // Hide setup screen with fade
                    setupScreen.style.opacity = '0';
                    setTimeout(() => setupScreen.style.display = 'none', 300);
                } catch (e) {
                    console.error(`Initialization Failed:`, e);
                    showError(`Failed to initialize viewer: ` + e.message);
                }
            }

            // File Loading Logic
            function handleFile(file) {
                const reader = new FileReader();
                reader.onload = (e) => {
                    try {
                        const config = JSON.parse(e.target.result);
                        initApp(config);
                    } catch (err) {
                        showError(`Invalid JSON file`);
                    }
                };
                reader.readAsText(file);
            }

            // Drag & Drop
            dropZone.addEventListener('dragover', (e) => {
                e.preventDefault();
                dropZone.classList.add('dragover');
            });
            dropZone.addEventListener('dragleave', () => dropZone.classList.remove('dragover'));
            dropZone.addEventListener('drop', (e) => {
                e.preventDefault();
                dropZone.classList.remove('dragover');
                if (e.dataTransfer.files.length) handleFile(e.dataTransfer.files[0]);
            });

            // Input Change
            fileInput.addEventListener('change', (e) => {
                if (e.target.files.length) handleFile(e.target.files[0]);
            });

            // Global Pasted Config Handler
            window.loadPastedConfig = () => {
                try {
                    const val = pasteArea.value.trim();
                    if (!val) return;
                    const config = JSON.parse(val);
                    initApp(config);
                } catch (e) {
                    showError(`Invalid JSON text`);
                }
            };
            
            // --- AUTO-LOAD LOGIC ---
            // 1. Check URL param ?config=...
            const urlParams = new URLSearchParams(window.location.search);
            const configUrl = urlParams.get('config');
            
            if (configUrl) {
                try {
                    const resp = await fetch(configUrl);
                    if (!resp.ok) throw new Error('Failed to fetch config');
                    const config = await resp.json();
                    initApp(config);
                    return;
                } catch (e) {
                    console.warn(`URL config failed, trying local...`, e);
                }
            }
            
            // 2. Try fetching local relative config (if served)
            /*
            try {
                const controller = new AbortController();
                const id = setTimeout(() => controller.abort(), 500); // 500ms timeout
                const resp = await fetch('configs/genome-data.config.json', { signal: controller.signal });
                clearTimeout(id);
                if (resp.ok) {
                    const config = await resp.json();
                    initApp(config);
                    return;
                }
            } catch (e) {
                // Ignore fetch errors (likely file:// protocol)
            }
            */

            // 3. Use Embedded Default (Fastest, most robust for this replica)
            if (DEFAULT_CONFIG) {
                console.log(`Using embedded default config`);
                initApp(DEFAULT_CONFIG);
            } else {
                // Stay on setup screen
            }

        });
    </script>
</body>
</html>
".

(** The f-string [html_template]. *)
Definition html_template (css_content config_content js_content : text) : text :=
  template_head ++ css_content ++ template_setup ++ config_content
  ++ template_bundle ++ js_content ++ template_init.

Definition js_files : list string :=
  [ "config-schema.js"; "transformers.js"; "kbase-client.js";
    "category-manager.js"; "table-renderer.js" ]%string.

Section Paths.

(** [ROOT_DIR = os.path.dirname(os.path.abspath(__file__))]. *)
Variable ROOT_DIR : string.

Definition CONFIG_PATH : string :=
  path_join (path_join ROOT_DIR "configs") "genome-data.config.json".
Definition CSS_PATH : string := path_join (path_join ROOT_DIR "css") "table-renderer.css".
Definition JS_DIR : string := path_join ROOT_DIR "js".
Definition OUTPUT_FILE : string := path_join ROOT_DIR "viewer.html".

(** The provenance marker written before a module. *)
Definition marker (js_file : string) : text :=
  nl ++ txt "/* --- " ++ txt js_file ++ txt " --- */" ++ nl.

(** The loop [for js_file in js_files: ...], from its accumulator. *)
Fixpoint bundle (js_files : list string) (js_content : text) : py text :=
  match js_files with
  | [] => ret js_content
  | js_file :: rest =>
    let path := path_join JS_DIR js_file in
    print (Line (txt "Bundling " ++ txt js_file ++ txt "...")) ;;;
    let js_content := js_content ++ marker js_file in
    content <- read_file path ;;
    let js_content := js_content ++ (content ++ nl) in
    bundle rest js_content
  end.

(** [build], for a list of modules. The [return] of the [except] branch
    is the [None] of the first step. *)
Definition build_with (js_files : list string) : py unit :=
  print (Line (txt "Building viewer.html...")) ;;;
  print (Line (txt "Reading CSS from " ++ txt CSS_PATH ++ txt "...")) ;;;
  css_content <- read_file CSS_PATH ;;
  print (Line (txt "Reading Config from " ++ txt CONFIG_PATH ++ txt "...")) ;;;
  checked <-
    try_catch
      (config_content <- read_file CONFIG_PATH ;;
       json_loads_stmt config_content ;;;
       ret (Some config_content))
      (fun e => print (ErrorReadingConfig e) ;;; ret None) ;;
  match checked with
  | None => ret tt
  | Some config_content =>
    js_content <- bundle js_files [] ;;
    write_file OUTPUT_FILE (html_template css_content config_content js_content) ;;;
    print (Line (txt "Successfully generated " ++ txt OUTPUT_FILE))
  end.

Definition build : py unit := build_with js_files.

(** [if __name__ == "__main__": build()]: the exit status of the
    interpreter is 1 when an exception reaches the top level, 0 when
    [build] returns. *)
Definition main (w : world) : Z * world :=
  match build w with
  | (Normal _, w') => (0%Z, w')
  | (Throw _, w') => (1%Z, w')
  end.

End Paths.

End Build.

(** * The Bootstrap Resolver: the script of the written document *)

Module Resolver.

Local Open Scope eff_scope.

(** A thrown value: an error object and the message it carries. *)
Record error : Type := Error { message : text }.

(** [if (x)] on a string and on a JSON value. A number literal is falsy
    when the double nearest to it is zero: when its mantissa is zero, or
    when its magnitude is at most [2^-1075], half the least positive
    double. *)
Definition truthy_string (s : text) : bool :=
  match s with
  | [] => false
  | _ :: _ => true
  end.

Definition rounds_to_zero (mantissa : N) (exponent : Z) : bool :=
  (mantissa =? 0)
  || ((exponent <? 0)%Z
      && (Z.of_N mantissa * 2 ^ 1075 <=? 10 ^ (- exponent))%Z).

Definition truthy (v : JSON.value) : bool :=
  match v with
  | JSON.Null => false
  | JSON.Bool b => b
  | JSON.Number (JSON.Decimal _ m e) => negb (rounds_to_zero m e)
  | JSON.Number JSON.NaN => false
  | JSON.Number (JSON.Infinity _) => true
  | JSON.String s => truthy_string s
  | JSON.Array _ => true
  | JSON.Object _ => true
  end.

(** [String.prototype.trim]: white space and line terminators of
    ECMAScript are removed at both ends. *)
Definition is_js_space (c : N) : bool :=
  ((9 <=? c) && (c <=? 13))
  || (c =? 32) || (c =? 160) || (c =? 5760)
  || ((8192 <=? c) && (c <=? 8202))
  || (c =? 8232) || (c =? 8233) || (c =? 8239) || (c =? 8287)
  || (c =? 12288) || (c =? 65279).

Fixpoint trim_start (s : text) : text :=
  match s with
  | c :: r => if is_js_space c then trim_start r else s
  | [] => []
  end.

Definition trim (s : text) : text := rev (trim_start (rev (trim_start s))).

(** ** The page *)

(** An inline [style.display]: not set (the stylesheet's rule applies),
    ['none'] or ['block']. *)
Inductive display : Type :=
| display_unset
| display_none
| display_block.

(** [setupScreen.style.opacity]: not set, or ['0']. *)
Inductive opacity : Type :=
| opacity_unset
| opacity_0.

Inductive console_entry : Type :=
| console_log (msg : text)
| console_warn (msg : text) (e : error)
| console_error (msg : text) (e : error).

(** What the script reads and writes: the two inline styles of
    [#setup-screen]; the text and inline display of [#setup-error]; the
    [dragover] class of the drop zone; [window.renderer], as the
    configuration the engine was constructed with; the configuration
    whose render into [#app] has completed; every configuration a
    [new TableRenderer] was given, oldest first; the console; the number
    of [setTimeout] callbacks not yet run; and the errors that reached
    the top level uncaught. *)
Record page : Type := Page {
  setupScreen_opacity : opacity;
  setupScreen_display : display;
  errorMsg_textContent : text;
  errorMsg_display : display;
  dropZone_dragover : bool;
  window_renderer : option JSON.value;
  app_rendered : option JSON.value;
  constructed : list JSON.value;
  console : list console_entry;
  timers : nat;
  uncaught : list error
}.

(** The page as the document is parsed: the setup screen shows, the
    error paragraph has [display: none]. *)
Definition initial_page : page :=
  {| setupScreen_opacity := opacity_unset;
     setupScreen_display := display_unset;
     errorMsg_textContent := [];
     errorMsg_display := display_none;
     dropZone_dragover := false;
     window_renderer := None;
     app_rendered := None;
     constructed := [];
     console := [];
     timers := 0%nat;
     uncaught := [] |}.

Abbreviation js := (eff page error).

Definition set_setupScreen_opacity (o : opacity) : js unit :=
  modify (fun p => Page o (setupScreen_display p) (errorMsg_textContent p)
    (errorMsg_display p) (dropZone_dragover p) (window_renderer p) (app_rendered p)
    (constructed p) (console p) (timers p) (uncaught p)).

Definition set_setupScreen_display (d : display) : js unit :=
  modify (fun p => Page (setupScreen_opacity p) d (errorMsg_textContent p)
    (errorMsg_display p) (dropZone_dragover p) (window_renderer p) (app_rendered p)
    (constructed p) (console p) (timers p) (uncaught p)).

Definition set_errorMsg_textContent (msg : text) : js unit :=
  modify (fun p => Page (setupScreen_opacity p) (setupScreen_display p) msg
    (errorMsg_display p) (dropZone_dragover p) (window_renderer p) (app_rendered p)
    (constructed p) (console p) (timers p) (uncaught p)).

Definition set_errorMsg_display (d : display) : js unit :=
  modify (fun p => Page (setupScreen_opacity p) (setupScreen_display p)
    (errorMsg_textContent p) d (dropZone_dragover p) (window_renderer p) (app_rendered p)
    (constructed p) (console p) (timers p) (uncaught p)).

Definition set_dropZone_dragover (b : bool) : js unit :=
  modify (fun p => Page (setupScreen_opacity p) (setupScreen_display p)
    (errorMsg_textContent p) (errorMsg_display p) b (window_renderer p) (app_rendered p)
    (constructed p) (console p) (timers p) (uncaught p)).

Definition set_window_renderer (config : JSON.value) : js unit :=
  modify (fun p => Page (setupScreen_opacity p) (setupScreen_display p)
    (errorMsg_textContent p) (errorMsg_display p) (dropZone_dragover p) (Some config)
    (app_rendered p) (constructed p) (console p) (timers p) (uncaught p)).

Definition set_app_rendered (config : JSON.value) : js unit :=
  modify (fun p => Page (setupScreen_opacity p) (setupScreen_display p)
    (errorMsg_textContent p) (errorMsg_display p) (dropZone_dragover p) (window_renderer p)
    (Some config) (constructed p) (console p) (timers p) (uncaught p)).

Definition note_constructed (config : JSON.value) : js unit :=
  modify (fun p => Page (setupScreen_opacity p) (setupScreen_display p)
    (errorMsg_textContent p) (errorMsg_display p) (dropZone_dragover p) (window_renderer p)
    (app_rendered p) (constructed p ++ [config]) (console p) (timers p) (uncaught p)).

Definition console_write (entry : console_entry) : js unit :=
  modify (fun p => Page (setupScreen_opacity p) (setupScreen_display p)
    (errorMsg_textContent p) (errorMsg_display p) (dropZone_dragover p) (window_renderer p)
    (app_rendered p) (constructed p) (console p ++ [entry]) (timers p) (uncaught p)).

Definition set_timers (n : nat) : js unit :=
  modify (fun p => Page (setupScreen_opacity p) (setupScreen_display p)
    (errorMsg_textContent p) (errorMsg_display p) (dropZone_dragover p) (window_renderer p)
    (app_rendered p) (constructed p) (console p) n (uncaught p)).

Definition report_uncaught (e : error) (p : page) : page :=
  Page (setupScreen_opacity p) (setupScreen_display p)
    (errorMsg_textContent p) (errorMsg_display p) (dropZone_dragover p) (window_renderer p)
    (app_rendered p) (constructed p) (console p) (timers p) (uncaught p ++ [e]).

(** [setTimeout(() => setupScreen.style.display = 'none', 300)]. *)
Definition setTimeout_hide : js unit :=
  fun p => set_timers (S (timers p)) p.

(** A call of an [async] function whose promise nobody awaits: the
    caller continues normally whatever the body does; a rejection of the
    promise has no handler and reaches the top level. Awaited operations
    are taken to settle before the next event is handled. *)
Definition call_async (body : js unit) : js unit :=
  fun p =>
    match body p with
    | (Normal _, p') => (Normal tt, p')
    | (Throw e, p') => (Normal tt, report_uncaught e p')
    end.

(** ** The rendering engine *)

(** Modelled from the spec: the rendering engine ([TableRenderer], bundled
    from [js/table-renderer.js], which is not among the sources) is
    constructed with one configuration and exposes an asynchronous render
    operation accepting a mount container; it may throw or reject to signal
    construction or render failure, with a message. What an engine does on
    one use is given with that use. *)
Inductive engine : Type :=
| constructor_throws (e : error)
| render_rejects (e : error)
| render_resolves.

Definition new_TableRenderer (b : engine) (config : JSON.value) : js JSON.value :=
  note_constructed config ;;;
  match b with
  | constructor_throws e => throw e
  | _ => ret config
  end.

Definition renderer_render (b : engine) (renderer : JSON.value) : js unit :=
  match b with
  | render_rejects e => throw e
  | _ => set_app_rendered renderer
  end.

(** What a [File] yields under [FileReader.readAsText]: its text in the
    [load] event, or no [load] event at all. *)
Inductive file : Type :=
| readable (result : text)
| unreadable.

(** What [fetch(url)] settles to: a rejection, or a response with its
    [ok] flag and the text [resp.json()] parses, or the error reading the
    body ends in. *)
Inductive response : Type :=
| fetch_rejects (e : error)
| fetch_resolves (ok : bool) (body : error + text).

Section Script.

(** [JSON.parse], with the error it throws on text that is not JSON. *)
Variable JSON_parse : text -> error + JSON.value.

(** [const DEFAULT_CONFIG = ...]. *)
Variable DEFAULT_CONFIG : JSON.value.

Definition JSON_parse_stmt (s : text) : js JSON.value :=
  match JSON_parse s with
  | inr v => ret v
  | inl e => throw e
  end.

Definition showError (msg : text) : js unit :=
  set_errorMsg_textContent msg ;;;
  set_errorMsg_display display_block.

Definition initApp (b : engine) (config : JSON.value) : js unit :=
  try_catch
    (renderer <- new_TableRenderer b config ;;
     set_window_renderer renderer ;;;
     renderer_render b renderer ;;;
     set_setupScreen_opacity opacity_0 ;;;
     setTimeout_hide)
    (fun e =>
       console_write (console_error (txt "Initialization Failed:") e) ;;;
       showError (txt "Failed to initialize viewer: " ++ message e)).

(** [handleFile(file)], with the [load] event of its reader. *)
Definition handleFile (b : engine) (f : file) : js unit :=
  match f with
  | unreadable => ret tt
  | readable result =>
    try_catch
      (config <- JSON_parse_stmt result ;;
       call_async (initApp b config))
      (fun err => showError (txt "Invalid JSON file"))
  end.

(** The listeners of the drop zone and of the file input. *)
Definition on_dragover : js unit := set_dropZone_dragover true.
Definition on_dragleave : js unit := set_dropZone_dragover false.

Definition on_drop (b : engine) (files : list file) : js unit :=
  set_dropZone_dragover false ;;;
  match files with
  | f :: _ => handleFile b f
  | [] => ret tt
  end.

Definition on_change (b : engine) (files : list file) : js unit :=
  match files with
  | f :: _ => handleFile b f
  | [] => ret tt
  end.

(** [window.loadPastedConfig], given [pasteArea.value]. The [return] on
    an empty [val] leaves the [try] block normally. *)
Definition loadPastedConfig (b : engine) (pasteArea_value : text) : js unit :=
  try_catch
    (let val := trim pasteArea_value in
     if negb (truthy_string val) then ret tt
     else
       config <- JSON_parse_stmt val ;;
       call_async (initApp b config))
    (fun e => showError (txt "Invalid JSON text")).

(** The callback of [setTimeout] in [initApp]. *)
Definition on_timeout : js unit :=
  fun p =>
    match timers p with
    | O => (Normal tt, p)
    | S n => (set_timers n ;;; set_setupScreen_display display_none) p
    end.

(** [fetch(configUrl)] and [resp.json()]. *)
Definition fetch_stmt (r : response) : js (bool * (error + text)) :=
  match r with
  | fetch_rejects e => throw e
  | fetch_resolves ok body => ret (ok, body)
  end.

Definition resp_json (body : error + text) : js JSON.value :=
  match body with
  | inl e => throw e
  | inr s => JSON_parse_stmt s
  end.

(** The auto-load logic at the end of the [DOMContentLoaded] listener.
    [configUrl] is the result of [urlParams.get('config')], [fetch] what
    the network answers for a URL, [b] the engine's behaviour in the one
    [initApp] the sequence can reach. The first step yields [true] where
    the source returns from the listener. *)
Definition autoload (configUrl : option text) (fetch : text -> response) (b : engine)
  : js unit :=
  returned <-
    match configUrl with
    | Some url =>
      if truthy_string url then
        try_catch
          (resp <- fetch_stmt (fetch url) ;;
           (if negb (fst resp) then throw (Error (txt "Failed to fetch config")) else ret tt) ;;;
           config <- resp_json (snd resp) ;;
           call_async (initApp b config) ;;;
           ret true)
          (fun e =>
             console_write (console_warn (txt "URL config failed, trying local...") e) ;;;
             ret false)
      else ret false
    | None => ret false
    end ;;
  if (returned : bool) then ret tt
  else if truthy DEFAULT_CONFIG then
    console_write (console_log (txt "Using embedded default config")) ;;;
    call_async (initApp b DEFAULT_CONFIG)
  else ret tt.

(** ** Events *)

Inductive event : Type :=
| dragover
| dragleave
| drop (files : list file) (b : engine)
| change (files : list file) (b : engine)
| load_json_click (pasteArea_value : text) (b : engine)
| timeout.

Definition listener (ev : event) : js unit :=
  match ev with
  | dragover => on_dragover
  | dragleave => on_dragleave
  | drop files b => on_drop b files
  | change files b => on_change b files
  | load_json_click v b => loadPastedConfig b v
  | timeout => on_timeout
  end.

(** Running a listener to its end; an exception that leaves it is
    uncaught. *)
Definition dispatch (m : js unit) (p : page) : page :=
  match m p with
  | (Normal _, p') => p'
  | (Throw e, p') => report_uncaught e p'
  end.

Definition handle (p : page) (ev : event) : page := dispatch (listener ev) p.

Definition run (evs : list event) (p : page) : page := fold_left handle evs p.

(** The page once the document has loaded. *)
Definition loaded (configUrl : option text) (fetch : text -> response) (b : engine) : page :=
  dispatch (autoload configUrl fetch b) initial_page.

End Script.

(** ** The state of the bootstrap, as the page shows it

    Between two events the page is in one of two states: the setup screen
    shows, or it has been faded out after a render. The script keeps no
    state variable; the states in which a source is being resolved or a
    render has just failed are passed through inside [autoload] and
    [initApp]. *)

Inductive bootstrap_state : Type :=
| setup_visible
| rendering.

Definition state_of (p : page) : bootstrap_state :=
  match setupScreen_opacity p, setupScreen_display p with
  | opacity_unset, display_unset => setup_visible
  | opacity_unset, display_block => setup_visible
  | _, _ => rendering
  end.

End Resolver.

(** * The written document at run time *)

Module Artifact.

(** [JSON.parse] on the grammar above; the message of its SyntaxError is
    the engine's own. *)
Definition SyntaxError : Resolver.error :=
  Resolver.Error (txt "JSON.parse: unexpected character").

Definition JSON_parse_js (s : text) : Resolver.error + JSON.value :=
  match JSON_parse s with
  | Some v => inr v
  | None => inl SyntaxError
  end.

(** The value the statement [const DEFAULT_CONFIG = ...;] binds, for the
    config text the build step put there: a text of the grammar of
    [json.loads] is a JavaScript expression, of the value the grammar
    gives it ([NaN] and [Infinity] name those numbers). [None] for a text the build step never
    embeds. Two kinds of text are outside this reading, neither of them
    falsy: an object with a key [__proto__], which an object literal
    treats as the prototype, and a string that holds the end tag of the
    script element, at which the HTML parser ends the script. *)
Definition embedded_default (config_content : text) : option JSON.value :=
  JSON.decode true config_content.

End Artifact.

(** * Vocabulary of the properties *)

Module Props.

Import Resolver.

(** The three ways to hand a configuration to the setup surface: a file
    dropped on the drop zone (with the other files of the same drop), a
    file chosen in the picker, text committed from the paste area. *)
Inductive submission : Type :=
| dropped (result : text) (others : list file)
| picked (result : text) (others : list file)
| pasted (pasteArea_value : text).

Definition submit (s : submission) (b : engine) : event :=
  match s with
  | dropped t others => drop (readable t :: others) b
  | picked t others => change (readable t :: others) b
  | pasted v => load_json_click v b
  end.

(** The text a submission gives to [JSON.parse]. *)
Definition submitted_text (s : submission) : text :=
  match s with
  | dropped t _ => t
  | picked t _ => t
  | pasted v => trim v
  end.

(** A paste of nothing but white space. *)
Definition blank_paste (s : submission) : bool :=
  match s with
  | pasted v => negb (truthy_string (trim v))
  | _ => false
  end.

(** The inline error of a mechanism. *)
Definition invalid_message (s : submission) : text :=
  match s with
  | pasted _ => txt "Invalid JSON text"
  | _ => txt "Invalid JSON file"
  end.

(** The error the URL source ends in, if it fails: the fetch rejects,
    the status is not a success, the body cannot be read, or it does not
    parse. *)
Definition url_failure (JSON_parse : text -> error + JSON.value) (r : response)
  : option error :=
  match r with
  | fetch_rejects e => Some e
  | fetch_resolves false _ => Some (Error (txt "Failed to fetch config"))
  | fetch_resolves true (inl e) => Some e
  | fetch_resolves true (inr body) =>
    match JSON_parse body with
    | inl e => Some e
    | inr _ => None
    end
  end.

(** The error an engine fails with, if it fails. *)
Definition engine_failure (b : engine) : option error :=
  match b with
  | constructor_throws e => Some e
  | render_rejects e => Some e
  | render_resolves => None
  end.

(** An event that carries user input which parses: a drop or a pick
    whose first file reads as JSON, a paste that is JSON once trimmed. *)
Definition is_inr {A B} (x : A + B) : bool :=
  match x with
  | inr _ => true
  | inl _ => false
  end.

Definition supplies_json (JSON_parse : text -> error + JSON.value) (ev : event) : bool :=
  match ev with
  | drop (readable t :: _) _ => is_inr (JSON_parse t)
  | change (readable t :: _) _ => is_inr (JSON_parse t)
  | load_json_click v _ => truthy_string (trim v) && is_inr (JSON_parse (trim v))
  | _ => false
  end.

(** The page with one more entry at the start of its console. *)
Definition console_after (entry : console_entry) (p : page) : page :=
  Page (setupScreen_opacity p) (setupScreen_display p)
    (errorMsg_textContent p) (errorMsg_display p) (dropZone_dragover p) (window_renderer p)
    (app_rendered p) (constructed p) (entry :: console p) (timers p) (uncaught p).

(** The page once [showError(msg)] has run. *)
Definition shows (msg : text) (p : page) : page :=
  Page (setupScreen_opacity p) (setupScreen_display p) msg display_block
    (dropZone_dragover p) (window_renderer p) (app_rendered p) (constructed p)
    (console p) (timers p) (uncaught p).

(** The page once the [dragover] class is removed, which a drop does
    before anything else. *)
Definition undragged (p : page) : page :=
  Page (setupScreen_opacity p) (setupScreen_display p)
    (errorMsg_textContent p) (errorMsg_display p) false (window_renderer p)
    (app_rendered p) (constructed p) (console p) (timers p) (uncaught p).

Definition received (s : submission) (p : page) : page :=
  match s with
  | dropped _ _ => undragged p
  | _ => p
  end.

(** A page on which nothing has started rendering. *)
Definition untouched (p : page) : Prop :=
  state_of p = setup_visible /\ constructed p = [] /\ timers p = 0%nat.

(** ** The build step *)

Import Build.

(** A path [read_file] returns the text of, and that text. *)
Definition reads (fs : gmap string node) (path : string) : bool :=
  match fs !! path with
  | Some (File _) => true
  | _ => false
  end.

Definition content_at (fs : gmap string node) (path : string) : text :=
  match fs !! path with
  | Some (File content) => content
  | _ => []
  end.

(** The config file can be read and [json.loads] accepts its text. *)
Definition config_usable (ROOT_DIR : string) (py : Python.interpreter)
    (fs : gmap string node) : bool :=
  match fs !! CONFIG_PATH ROOT_DIR with
  | Some (File content) =>
    match json_loads py content with
    | Some _ => true
    | None => false
    end
  | _ => false
  end.

Definition modules_readable (ROOT_DIR : string) (fs : gmap string node)
    (js_files : list string) : bool :=
  forallb (fun js_file => reads fs (path_join (JS_DIR ROOT_DIR) js_file)) js_files.

(** The entry of one module in the bundle: its marker, its content, a
    newline. The bundle of a list of modules is their entries in order. *)
Definition module_entry (ROOT_DIR : string) (fs : gmap string node) (js_file : string)
  : text :=
  marker js_file ++ content_at fs (path_join (JS_DIR ROOT_DIR) js_file) ++ nl.

Definition bundled (ROOT_DIR : string) (fs : gmap string node) (js_files : list string)
  : text :=
  concat (map (module_entry ROOT_DIR fs) js_files).

(** The document [build] writes from the files it read. *)
Definition document (ROOT_DIR : string) (fs : gmap string node) (js_files : list string)
  : text :=
  html_template (content_at fs (CSS_PATH ROOT_DIR)) (content_at fs (CONFIG_PATH ROOT_DIR))
    (bundled ROOT_DIR fs js_files).

Definition bundling_line (js_file : string) : output :=
  Line (txt "Bundling " ++ txt js_file ++ txt "...").

(** The lines [build] prints before it reads the stylesheet, before it
    reads the config file, and at its end. *)
Definition preamble (ROOT_DIR : string) : list output :=
  [ Line (txt "Building viewer.html...");
    Line (txt "Reading CSS from " ++ txt (CSS_PATH ROOT_DIR) ++ txt "...") ].

Definition config_line (ROOT_DIR : string) : output :=
  Line (txt "Reading Config from " ++ txt (CONFIG_PATH ROOT_DIR) ++ txt "...").

Definition success_line (ROOT_DIR : string) : output :=
  Line (txt "Successfully generated " ++ txt (OUTPUT_FILE ROOT_DIR)).

End Props.

(** * Concrete inputs *)

Module Sample.

Import Build Resolver.

(** [{"a":1}] and [{"a":}]. *)
Definition valid_text : text := txt "{" ++ dq ++ txt "a" ++ dq ++ txt ":1}".
Definition invalid_text : text := txt "{" ++ dq ++ txt "a" ++ dq ++ txt ":}".
Definition valid_config : JSON.value :=
  JSON.Object [(txt "a", JSON.Number (JSON.Decimal false 1 0))].

(** Two spaces, a line feed and a no-break space. *)
Definition blank_text : text := [32; 32; 10; 160].

Definition url : text := txt "https://example.org/genome.config.json".

Definition schema_error : error := Error (txt "config.tables is required").

(** A network that answers every URL with [valid_text], and one that
    answers every URL with status 404. *)
Definition fetch_json (u : text) : response := fetch_resolves true (inr valid_text).
Definition fetch_404 (u : text) : response := fetch_resolves false (inr (txt "Not Found")).

(** A checkout of the repository under [/srv/viewer]. *)
Definition root : string := "/srv/viewer".

Definition sources : list (string * node) :=
  [ (CSS_PATH root, File (txt "body { margin: 0 }"));
    (path_join (JS_DIR root) "config-schema.js", File (txt "const S = 1;"));
    (path_join (JS_DIR root) "transformers.js", File (txt "const T = S;"));
    (path_join (JS_DIR root) "kbase-client.js", File (txt "const K = T;"));
    (path_join (JS_DIR root) "category-manager.js", File (txt "const C = K;"));
    (path_join (JS_DIR root) "table-renderer.js", File (txt "class TableRenderer {}")) ].

(** An interpreter with limits of the usual size. *)
Definition cpython : Python.interpreter := Python.Interpreter 990 4300.

Definition checkout_without_config : world := World (list_to_map sources) [] ∅ cpython.

Definition checkout (config_content : text) : world :=
  World (list_to_map ((CONFIG_PATH root, File config_content) :: sources)) [] ∅ cpython.

End Sample.

(** * Images

    [get_base64_image] reads a file in binary mode and returns its bytes
    in base 64, as text. [base64.b64encode] is a library function; it
    follows RFC 4648 with the standard alphabet and padding. *)

Module Images.

Local Open Scope eff_scope.

(** The character of a six-bit value: [A-Z], [a-z], [0-9], [+], [/]. *)
Definition alphabet (i : N) : N :=
  if i <? 26 then 65 + i
  else if i <? 52 then 97 + (i - 26)
  else if i <? 62 then 48 + (i - 52)
  else if i =? 62 then 43
  else 47.

(** The padding character [=]. *)
Definition pad : N := 61.

(** Three bytes give four characters; one or two bytes left at the end
    give two or three characters and padding. *)
Fixpoint b64encode (bs : list Byte.byte) : text :=
  match bs with
  | [] => []
  | [a] =>
    let a := Byte.to_N a in
    [alphabet (a / 4); alphabet ((a mod 4) * 16); pad; pad]
  | [a; b] =>
    let a := Byte.to_N a in
    let b := Byte.to_N b in
    [alphabet (a / 4); alphabet ((a mod 4) * 16 + b / 16); alphabet ((b mod 16) * 4); pad]
  | a :: b :: c :: rest =>
    let a := Byte.to_N a in
    let b := Byte.to_N b in
    let c := Byte.to_N c in
    [alphabet (a / 4); alphabet ((a mod 4) * 16 + b / 16);
     alphabet ((b mod 16) * 4 + c / 64); alphabet (c mod 64)]
    ++ b64encode rest
  end.

(** What a path names for [open(image_path, 'rb')]: the bytes of a file,
    or something the read raises on. *)
Inductive image : Type :=
| Bytes (content : list Byte.byte)
| NoAccess.

Abbreviation io := (eff (gmap string image) Build.exn).

(** [f.read()] under [with open(image_path, 'rb') as f]. *)
Definition read_bytes (image_path : string) : io (list Byte.byte) :=
  fun disk =>
    match disk !! image_path with
    | Some (Bytes content) => (Normal content, disk)
    | Some NoAccess => (Throw (Build.ReadError image_path), disk)
    | None => (Throw (Build.FileNotFoundError image_path), disk)
    end.

(** [base64.b64encode(...).decode('utf-8')]: the encoded bytes are
    ASCII, and the text has their codes. *)
Definition get_base64_image (image_path : string) : io text :=
  content <- read_bytes image_path ;;
  ret (b64encode content).

(** The six-bit value of a character of the alphabet, and the bytes of
    an encoded text: the reading that undoes [b64encode]. *)
Definition sextet (c : N) : option N :=
  if (65 <=? c) && (c <=? 90) then Some (c - 65)
  else if (97 <=? c) && (c <=? 122) then Some (c - 97 + 26)
  else if (48 <=? c) && (c <=? 57) then Some (c - 48 + 52)
  else if c =? 43 then Some 62
  else if c =? 47 then Some 63
  else None.

Definition bytes_of (ns : list N) : option (list Byte.byte) :=
  fold_right
    (fun n acc =>
       match Byte.of_N n, acc with
       | Some b, Some bs => Some (b :: bs)
       | _, _ => None
       end)
    (Some []) ns.

Fixpoint b64decode (fuel : nat) (s : text) : option (list Byte.byte) :=
  match fuel with
  | O => None
  | S fuel' =>
    match s with
    | [] => Some []
    | [c1; c2; c3; c4] =>
      match sextet c1, sextet c2 with
      | Some x1, Some x2 =>
        if (c3 =? pad) && (c4 =? pad) then bytes_of [x1 * 4 + x2 / 16]
        else
          match sextet c3 with
          | Some x3 =>
            if c4 =? pad then bytes_of [x1 * 4 + x2 / 16; (x2 mod 16) * 16 + x3 / 4]
            else
              match sextet c4 with
              | Some x4 =>
                bytes_of [x1 * 4 + x2 / 16; (x2 mod 16) * 16 + x3 / 4; (x3 mod 4) * 64 + x4]
              | None => None
              end
          | None => None
          end
      | _, _ => None
      end
    | c1 :: c2 :: c3 :: c4 :: rest =>
      match sextet c1, sextet c2, sextet c3, sextet c4, b64decode fuel' rest with
      | Some x1, Some x2, Some x3, Some x4, Some bs =>
        match bytes_of [x1 * 4 + x2 / 16; (x2 mod 16) * 16 + x3 / 4; (x3 mod 4) * 64 + x4] with
        | Some b3 => Some (b3 ++ bs)
        | None => None
        end
      | _, _, _, _, _ => None
      end
    | _ => None
    end
  end.

(** The bytes of a whole encoded text. *)
Definition decode (s : text) : option (list Byte.byte) := b64decode (S (length s)) s.

End Images.

(** * Further vocabulary *)

Module Cases.

Import Build Resolver Props.

(** The exception [read_file] raises on a path it cannot read. *)
Definition read_error (fs : gmap string node) (path : string) : exn :=
  match fs !! path with
  | None => FileNotFoundError path
  | _ => ReadError path
  end.

(** The modules the loop of [build] announces: those before the first
    one that cannot be read, and that one. *)
Fixpoint attempted (ROOT_DIR : string) (fs : gmap string node) (js_files : list string)
  : list string :=
  match js_files with
  | [] => []
  | js_file :: rest =>
    if reads fs (path_join (JS_DIR ROOT_DIR) js_file)
    then js_file :: attempted ROOT_DIR fs rest
    else [js_file]
  end.

Fixpoint first_unreadable (ROOT_DIR : string) (fs : gmap string node)
    (js_files : list string) : option string :=
  match js_files with
  | [] => None
  | js_file :: rest =>
    if reads fs (path_join (JS_DIR ROOT_DIR) js_file)
    then first_unreadable ROOT_DIR fs rest
    else Some js_file
  end.

(** The exception the [try] block of [build] ends in when the config
    file is not usable. *)
Definition config_error (ROOT_DIR : string) (fs : gmap string node) : exn :=
  match fs !! CONFIG_PATH ROOT_DIR with
  | Some (File content) => JSONLoadsError content
  | Some Unreadable => ReadError (CONFIG_PATH ROOT_DIR)
  | None => FileNotFoundError (CONFIG_PATH ROOT_DIR)
  end.

(** Every file [build] reads can be read and [json.loads] accepts the
    config text. *)
Definition inputs_usable (ROOT_DIR : string) (py : Python.interpreter)
    (fs : gmap string node) : bool :=
  reads fs (CSS_PATH ROOT_DIR) && config_usable ROOT_DIR py fs
  && modules_readable ROOT_DIR fs js_files.

(** [open(OUTPUT_FILE, 'w')] succeeds. *)
Definition output_writable (ROOT_DIR : string) (w : world) : bool :=
  bool_decide (OUTPUT_FILE ROOT_DIR ∉ unwritable w).

(** The paths [build] reads. *)
Definition input_paths (ROOT_DIR : string) : list string :=
  CSS_PATH ROOT_DIR :: CONFIG_PATH ROOT_DIR
  :: map (path_join (JS_DIR ROOT_DIR)) js_files.

(** The last character of a path. *)
Fixpoint last_char (p : string) : option ascii :=
  match p with
  | EmptyString => None
  | String.String c EmptyString => Some c
  | String.String _ r => last_char r
  end.

(** The page with the [dragover] class set, and the page once a pending
    timer has run with [n] timers left. *)
Definition dragged (p : page) : page :=
  Page (setupScreen_opacity p) (setupScreen_display p)
    (errorMsg_textContent p) (errorMsg_display p) true (window_renderer p)
    (app_rendered p) (constructed p) (console p) (timers p) (uncaught p).

Definition hidden (n : nat) (p : page) : page :=
  Page (setupScreen_opacity p) display_none
    (errorMsg_textContent p) (errorMsg_display p) (dropZone_dragover p) (window_renderer p)
    (app_rendered p) (constructed p) (console p) n (uncaught p).

(** What holds of a page a session can reach: the setup screen is gone,
    or about to go, only once it has been faded; it is faded only once a
    render has completed; and what has rendered, and what
    [window.renderer] was constructed with, was given to the engine. *)
Definition coherent (p : page) : Prop :=
  (setupScreen_display p = display_none \/ (0 < timers p)%nat ->
   setupScreen_opacity p = opacity_0)
  /\ (setupScreen_opacity p = opacity_0 -> exists c, app_rendered p = Some c)
  /\ (forall c, app_rendered p = Some c -> In c (constructed p))
  /\ (forall c, window_renderer p = Some c -> In c (constructed p))
  /\ setupScreen_display p <> display_block.

(** An event with the files after the first left out. *)
Definition first_file_only (ev : event) : event :=
  match ev with
  | drop (f :: _) b => drop [f] b
  | change (f :: _) b => change [f] b
  | _ => ev
  end.

(** A list of files the handlers take nothing from: no file, or a first
    file whose read ends in no [load] event. *)
Definition nothing_to_read (files : list file) : bool :=
  match files with
  | [] => true
  | unreadable :: _ => true
  | readable _ :: _ => false
  end.

(** Checkouts that miss the stylesheet, and the third module. *)
Definition checkout_without_css : world :=
  World (delete (CSS_PATH Sample.root) (files (Sample.checkout Sample.valid_text))) []
    ∅ Sample.cpython.

Definition checkout_without_client : world :=
  World (delete (path_join (JS_DIR Sample.root) "kbase-client.js")
           (files (Sample.checkout Sample.valid_text))) [] ∅ Sample.cpython.

(** A checkout whose [viewer.html] cannot be opened for writing. *)
Definition checkout_read_only : world :=
  World (files (Sample.checkout Sample.valid_text)) []
    {[ OUTPUT_FILE Sample.root ]} Sample.cpython.

(** An image of five bytes. *)
Definition logo_path : string := "/srv/viewer/logo.png".
Definition logo : list Byte.byte := [Byte.x89; Byte.x50; Byte.x4e; Byte.x47; Byte.x0d].
Definition media : gmap string Images.image := {[ logo_path := Images.Bytes logo ]}.

End Cases.

(** * The grammar never runs out of fuel *)

Section JSONFacts.

Import JSON.

Lemma skip_ws_length s : (length (skip_ws s) <= length s)%nat.
Proof.
  induction s as [|c s IH]; cbn [skip_ws]; [lia|].
  destruct (is_ws c); cbn [length]; lia.
Qed.

Lemma parse_chars_progress n : forall s, (length s <= n)%nat -> progress s (parse_chars s).
Proof.
  induction n as [|n IH]; intros [|c r] Hn; cbn [length] in Hn; try lia; try exact I.
  cbn [parse_chars].
  destruct (c =? 34); [cbn; lia|].
  destruct (c =? 92).
  - destruct r as [|e r1]; [exact I|].
    destruct (e =? 117).
    + destruct r1 as [|h1 [|h2 [|h3 [|h4 r2]]]]; try exact I.
      destruct (hex4 h1 h2 h3 h4); [|exact I].
      cbn [length] in Hn. specialize (IH r2 ltac:(lia)).
      destruct (parse_chars r2); cbn in *; try lia; auto.
    + destruct (simple_escape e); [|exact I].
      cbn [length] in Hn. specialize (IH r1 ltac:(lia)).
      destruct (parse_chars r1); cbn in *; try lia; auto.
  - destruct (c <? 32); [exact I|].
    specialize (IH r ltac:(lia)).
    destruct (parse_chars r); cbn in *; try lia; auto.
Qed.

Lemma digits_length s : forall acc n,
  (length (snd (digits acc n s)) <= length s)%nat.
Proof.
  induction s as [|c r IH]; intros acc n; cbn [digits]; [cbn; lia|].
  destruct (is_digit c); [|cbn; lia].
  specialize (IH (acc * 10 + (c - 48)) (S n)). cbn [length]. lia.
Qed.

Lemma parse_number_progress s : progress s (parse_number s).
Proof.
  unfold parse_number.
  assert (Hint : forall s0, progress s0 (parse_int s0)).
  { intros [|c r]; cbn [parse_int]; [exact I|].
    destruct (c =? 48); [cbn; lia|].
    destruct (is_digit c) eqn:Hd; [|exact I].
    pose proof (digits_length (c :: r) 0 0%nat) as H.
    cbn [digits] in *. rewrite Hd in *.
    pose proof (digits_length r (0 * 10 + (c - 48)) 1%nat) as H'.
    destruct (digits (0 * 10 + (c - 48)) 1 r) as [[m k] r1]. cbn in *. lia. }
  assert (Hfrac : forall m s0,
            match parse_frac m s0 with
            | Parsed _ r => (length r <= length s0)%nat
            | SyntaxError => True
            | OutOfFuel => False
            end).
  { intros m [|c r]; cbn [parse_frac]; [cbn; lia|].
    destruct (c =? 46); [|cbn; lia].
    pose proof (digits_length r m 0%nat) as H.
    destruct (digits m 0 r) as [[m1 k] r1]. destruct k; [exact I|]. cbn in *. lia. }
  assert (Hexp : forall s0,
            match parse_exp s0 with
            | Parsed _ r => (length r <= length s0)%nat
            | SyntaxError => True
            | OutOfFuel => False
            end).
  { intros [|c r]; cbn [parse_exp]; [cbn; lia|].
    destruct ((c =? 101) || (c =? 69)); [|cbn; lia].
    assert (Hr0 : forall r0, (length r0 <= length r)%nat ->
              match (let '(e, k, r1) := digits 0 0 r0 in
                     match k with
                     | O => SyntaxError
                     | S _ => Parsed e r1
                     end) with
              | Parsed _ r1 => (length r1 <= length (c :: r))%nat
              | SyntaxError => True
              | OutOfFuel => False
              end).
    { intros r0 Hr0. pose proof (digits_length r0 0 0%nat) as H.
      destruct (digits 0 0 r0) as [[e k] r1]. destruct k; [exact I|]. cbn in *. lia. }
    destruct r as [|sg r'].
    - cbn. exact I.
    - destruct (sg =? 45).
      + specialize (Hr0 r' ltac:(cbn; lia)).
        destruct (digits 0 0 r') as [[e k] r1]. destruct k; [exact I|]. exact Hr0.
      + destruct (sg =? 43).
        * specialize (Hr0 r' ltac:(cbn; lia)).
          destruct (digits 0 0 r') as [[e k] r1]. destruct k; [exact I|]. exact Hr0.
        * specialize (Hr0 (sg :: r') ltac:(cbn; lia)).
          destruct (digits 0 0 (sg :: r')) as [[e k] r1]. destruct k; [exact I|]. exact Hr0. }
  assert (Hs0 : forall neg s0, (length s0 <= length s)%nat ->
            progress s
              match parse_int s0 with
              | Parsed m r1 =>
                match parse_frac m r1 with
                | Parsed (m1, e1) r2 =>
                  match parse_exp r2 with
                  | Parsed e2 r3 => Parsed (Decimal neg m1 (e1 + e2)%Z) r3
                  | SyntaxError => SyntaxError
                  | OutOfFuel => OutOfFuel
                  end
                | SyntaxError => SyntaxError
                | OutOfFuel => OutOfFuel
                end
              | SyntaxError => SyntaxError
              | OutOfFuel => OutOfFuel
              end).
  { intros neg s0 Hlen. specialize (Hint s0).
    destruct (parse_int s0) as [m r1| |]; cbn in Hint; try exact Hint.
    specialize (Hfrac m r1).
    destruct (parse_frac m r1) as [[m1 e1] r2| |]; try exact Hfrac.
    specialize (Hexp r2).
    destruct (parse_exp r2) as [e2 r3| |]; try exact Hexp.
    cbn. lia. }
  destruct s as [|c r]; [exact (Hs0 false [] (le_n _))|].
  destruct (c =? 45).
  - apply Hs0. cbn. lia.
  - apply Hs0. lia.
Qed.

Lemma strip_prefix_length k : forall s r,
  strip_prefix k s = Some r -> (length r + length k = length s)%nat.
Proof.
  induction k as [|a k IH]; intros s r; cbn [strip_prefix].
  - intros [= ->]. cbn. lia.
  - destruct s as [|b s']; [discriminate|].
    destruct (a =? b); [|discriminate].
    intros H. apply IH in H. cbn [length]. lia.
Qed.

Lemma parse_keyword_length allow_nan s v r :
  parse_keyword (keywords allow_nan) s = Some (v, r) -> (length r < length s)%nat.
Proof.
  assert (H : forall kws, Forall (fun kv => (0 < length (fst kv))%nat) kws ->
            parse_keyword kws s = Some (v, r) -> (length r < length s)%nat).
  { induction kws as [|[k w] kws IH]; intros Hk; cbn [parse_keyword]; [discriminate|].
    inversion Hk as [|? ? Hk1 Hk2]; subst. cbn in Hk1.
    destruct (strip_prefix k s) as [r0|] eqn:Hs.
    - intros [= <- <-]. apply strip_prefix_length in Hs. lia.
    - now apply IH. }
  apply H. unfold keywords. destruct allow_nan; repeat constructor.
Qed.

Example JSON_parse_samples :
  map JSON_parse
      [ txt "null"; txt " [1, 2.50e-3 , true, [], {}] "; txt "-0"; txt "[1,]";
        txt "01"; txt "1."; txt "NaN"; txt ""; txt "nul"; txt "[1 2]"; txt "{} {}" ]
  = [ Some Null;
      Some (Array [ Number (Decimal false 1 0); Number (Decimal false 250 (-5));
                    Bool true; Array []; Object [] ]);
      Some (Number (Decimal true 0 0)); None; None; None; None; None; None; None; None ].
Proof. reflexivity. Qed.

Example json_loads_samples :
  map (json_loads Sample.cpython) [ txt "NaN"; txt "[-Infinity]"; txt "Infinit"; txt "" ]
  = [ Some (Number NaN); Some (Array [Number (Infinity true)]); None; None ].
Proof. reflexivity. Qed.

(** An escaped quote, an escaped code unit, and a raw line feed. *)
Example JSON_parse_strings :
  map JSON_parse
      [ dq ++ [92; 34] ++ dq; dq ++ txt "\u00e9" ++ dq; dq ++ [10] ++ dq; dq ++ txt "a" ]
  = [ Some (String [34]); Some (String [233]); None; None ].
Proof. reflexivity. Qed.

Variable allow_nan : bool.

Lemma parse_progress fuel :
  (forall s, (2 * length s + 1 <= fuel)%nat -> progress s (parse_value allow_nan fuel s))
  /\ (forall s, (2 * length s + 2 <= fuel)%nat -> progress s (parse_elements allow_nan fuel s))
  /\ (forall s, (2 * length s + 2 <= fuel)%nat -> progress s (parse_members allow_nan fuel s)).
Proof.
  induction fuel as [|fuel (IHv & IHe & IHm)]; [repeat split; intros s Hs; lia|].
  split; [|split]; intros s Hs.
  - cbn [parse_value]. destruct s as [|c r]; [exact I|]. cbn [length] in Hs.
    destruct (c =? 34).
    { pose proof (parse_chars_progress (length r) r (le_n _)) as H.
      destruct (parse_chars r); cbn in *; try lia; auto. }
    destruct (c =? 91).
    { pose proof (skip_ws_length r) as Hw.
      destruct (skip_ws r) as [|c1 r1]; [exact I|].
      destruct (c1 =? 93); [cbn in *; lia|].
      specialize (IHe (c1 :: r1) ltac:(lia)).
      destruct (parse_elements allow_nan fuel (c1 :: r1)); cbn in *; try lia; auto. }
    destruct (c =? 123).
    { pose proof (skip_ws_length r) as Hw.
      destruct (skip_ws r) as [|c1 r1]; [exact I|].
      destruct (c1 =? 125); [cbn in *; lia|].
      specialize (IHm (c1 :: r1) ltac:(lia)).
      destruct (parse_members allow_nan fuel (c1 :: r1)); cbn in *; try lia; auto. }
    destruct (parse_keyword (keywords allow_nan) (c :: r)) as [[v r1]|] eqn:Hk.
    { apply parse_keyword_length in Hk. exact Hk. }
    pose proof (parse_number_progress (c :: r)) as H.
    destruct (parse_number (c :: r)); cbn in *; try lia; auto.
  - cbn [parse_elements].
    specialize (IHv s ltac:(lia)).
    destruct (parse_value allow_nan fuel s) as [v r| |]; cbn in IHv; try exact IHv.
    pose proof (skip_ws_length r) as Hw.
    destruct (skip_ws r) as [|c r1]; [exact I|].
    destruct (c =? 44).
    + pose proof (skip_ws_length r1) as Hw1. cbn [length] in Hw.
      specialize (IHe (skip_ws r1) ltac:(lia)).
      destruct (parse_elements allow_nan fuel (skip_ws r1)); cbn in *; try lia; auto.
    + destruct (c =? 93); [cbn in *; lia|exact I].
  - cbn [parse_members]. destruct s as [|c r]; [exact I|]. cbn [length] in Hs.
    destruct (c =? 34); [|exact I].
    pose proof (parse_chars_progress (length r) r (le_n _)) as Hc.
    destruct (parse_chars r) as [k r1| |]; cbn in Hc; try exact Hc.
    pose proof (skip_ws_length r1) as Hw1.
    destruct (skip_ws r1) as [|c1 r2]; [exact I|].
    destruct (c1 =? 58); [|exact I].
    pose proof (skip_ws_length r2) as Hw2. cbn [length] in Hw1.
    specialize (IHv (skip_ws r2) ltac:(lia)).
    destruct (parse_value allow_nan fuel (skip_ws r2)) as [v r3| |]; cbn in IHv;
      try exact IHv.
    pose proof (skip_ws_length r3) as Hw3.
    destruct (skip_ws r3) as [|c2 r4]; [exact I|].
    destruct (c2 =? 44).
    + pose proof (skip_ws_length r4) as Hw4. cbn [length] in Hw3.
      specialize (IHm (skip_ws r4) ltac:(lia)).
      destruct (parse_members allow_nan fuel (skip_ws r4)); cbn in *; try lia; auto.
    + destruct (c2 =? 125); [cbn in *; lia|exact I].
Qed.

(** [parse_document] answers every text with a value or a syntax error. *)
Lemma parse_document_total s : parse_document allow_nan s <> OutOfFuel.
Proof.
  unfold parse_document.
  pose proof (proj1 (parse_progress (fuel_for (skip_ws s))) (skip_ws s)) as H.
  unfold fuel_for in *. specialize (H ltac:(lia)).
  destruct (parse_value allow_nan _ (skip_ws s)) as [v r| |]; cbn in H;
    [|discriminate|contradiction].
  destruct (skip_ws r); discriminate.
Qed.

End JSONFacts.

(** * Texts within the interpreter's limits *)

Section PythonFacts.

Import JSON Python.

Lemma scan_plain b k : forall rest,
  forallb plain k = true ->
  (forall fuel, (longest_int_literal fuel rest <= b)%nat) ->
  forall fuel, (longest_int_literal fuel (k ++ rest) <= b)%nat.
Proof.
  induction k as [|c k IH]; intros rest Hk Hrest fuel; [apply Hrest|].
  cbn [forallb] in Hk. apply andb_true_iff in Hk as [Hc Hk].
  destruct fuel as [|fuel]; [cbn; lia|].
  cbn [app longest_int_literal]. unfold plain in Hc.
  apply andb_true_iff in Hc as [H1 H2].
  apply negb_true_iff in H1, H2. rewrite H1, H2. now apply IH.
Qed.

Lemma is_ws_plain c : is_ws c = true -> plain c = true.
Proof.
  unfold is_ws, plain, is_digit. intros H.
  repeat (apply orb_true_iff in H as [H|H]); apply N.eqb_eq in H; now subst.
Qed.

Lemma scan_ws b : forall s,
  (forall fuel, (longest_int_literal fuel (skip_ws s) <= b)%nat) ->
  forall fuel, (longest_int_literal fuel s <= b)%nat.
Proof.
  induction s as [|c s IH]; intros H fuel; [apply H|].
  cbn [skip_ws] in H. destruct (is_ws c) eqn:Hc; [|apply H].
  apply (scan_plain b [c] s); [|now apply IH].
  cbn [forallb]. now rewrite is_ws_plain.
Qed.

Lemma scan_blank s : skip_ws s = [] -> forall fuel, longest_int_literal fuel s = 0%nat.
Proof.
  intros Hs fuel. apply Nat.le_0_r. apply scan_ws. rewrite Hs.
  intros [|f]; cbn; lia.
Qed.

Lemma strip_prefix_app k : forall s r, strip_prefix k s = Some r -> s = k ++ r.
Proof.
  induction k as [|a k IH]; intros s r H; cbn [strip_prefix] in H.
  - now injection H as <-.
  - destruct s as [|c s]; [discriminate|].
    destruct (a =? c) eqn:Hac; [|discriminate].
    apply N.eqb_eq in Hac as <-. cbn [app]. f_equal. now apply IH.
Qed.

Lemma digits_grows s : forall acc n m k r, digits acc n s = (m, k, r) -> acc <= m.
Proof.
  induction s as [|c s IH]; intros acc n m k r H; cbn [digits] in H.
  - injection H as <- _ _. lia.
  - destruct (is_digit c).
    + apply IH in H. lia.
    + injection H as <- _ _. lia.
Qed.

(** The scan of a whole text never stops for want of fuel: its length,
    and every larger number, give the same result. *)
Lemma longest_int_literal_fuel fuel1 : forall fuel2 s,
  (length s <= fuel1)%nat -> (length s <= fuel2)%nat ->
  longest_int_literal fuel1 s = longest_int_literal fuel2 s.
Proof.
  induction fuel1 as [|fuel1 IH]; intros fuel2 s H1 H2.
  - destruct s; [|cbn in H1; lia]. now destruct fuel2.
  - destruct s as [|c r]; [now destruct fuel2|].
    destruct fuel2 as [|fuel2]; [cbn in H2; lia|].
    cbn [length] in H1, H2. cbn [longest_int_literal].
    destruct (c =? 34).
    + pose proof (parse_chars_progress (length r) r (Nat.le_refl _)) as Hp.
      destruct (parse_chars r) as [cs rest| |]; try reflexivity.
      cbn [progress] in Hp. apply IH; lia.
    + destruct (is_digit c || (c =? 45)); [|apply IH; lia].
      pose proof (parse_number_progress (c :: r)) as Hp.
      destruct (parse_number (c :: r)) as [n rest| |]; [|apply IH; lia..].
      cbn [progress length] in Hp. f_equal. apply IH; lia.
Qed.

(** An integer literal whose value is zero is [0] or [-0]. *)
Lemma zero_is_one_digit s neg m e r :
  parse_number s = Parsed (Decimal neg m e) r ->
  Resolver.rounds_to_zero m e = true ->
  (int_literal_digits s <= 1)%nat.
Proof.
  unfold parse_number, int_literal_digits.
  set (s0 := match s with c :: r0 => if c =? 45 then r0 else s | [] => s end).
  replace (match s with c :: r0 => if c =? 45 then (true, r0) else (false, s)
           | [] => (false, s) end)
    with (match s with c :: _ => c =? 45 | [] => false end, s0)
    by (subst s0; destruct s as [|c s']; [reflexivity|now destruct (c =? 45)]).
  destruct (parse_int s0) as [m0 r1| |] eqn:Hint; try discriminate.
  assert (Hzero : m0 = 0 -> (length s0 - length r1 <= 1)%nat).
  { intros ->. unfold parse_int in Hint. destruct s0 as [|c s1]; [discriminate|].
    destruct (c =? 48) eqn:Hc.
    - injection Hint as <-. cbn [length]. lia.
    - destruct (is_digit c) eqn:Hd; [|discriminate].
      destruct (digits 0 0 (c :: s1)) as [[m1 k1] r2] eqn:Hdig.
      injection Hint as -> ->. cbn [digits] in Hdig. rewrite Hd in Hdig.
      apply digits_grows in Hdig. unfold is_digit in Hd.
      apply andb_true_iff in Hd as [Hd1 Hd2].
      apply N.leb_le in Hd1. apply N.eqb_neq in Hc. lia. }
  assert (Hm : Resolver.rounds_to_zero m0 0 = true -> m0 = 0).
  { unfold Resolver.rounds_to_zero. cbn [Z.ltb Z.compare andb]. rewrite orb_false_r.
    apply N.eqb_eq. }
  destruct r1 as [|c r1'].
  - cbn [parse_frac parse_exp]. intros H Hr. injection H as _ <- <- _.
    now apply Hzero, Hm.
  - destruct ((c =? 46) || (c =? 101) || (c =? 69)) eqn:Hc; [lia|].
    apply orb_false_iff in Hc as [Hc H69]. apply orb_false_iff in Hc as [H46 H101].
    unfold parse_frac, parse_exp. rewrite H46, H101, H69. cbn [orb].
    intros H Hr. injection H as _ <- <- _. now apply Hzero, Hm.
Qed.

Lemma parse_number_decimal s n r :
  parse_number s = Parsed n r -> exists neg m e, n = Decimal neg m e.
Proof.
  unfold parse_number.
  destruct (match s with c :: r0 => if c =? 45 then (true, r0) else (false, s)
            | [] => (false, s) end) as [neg s0].
  destruct (parse_int s0) as [m r1| |]; try discriminate.
  destruct (parse_frac m r1) as [[m1 e1] r2| |]; try discriminate.
  destruct (parse_exp r2) as [e2 r3| |]; try discriminate.
  intros [= <- _]. eauto.
Qed.

(** A text that decodes to a falsy value nests nothing and holds no
    integer literal longer than one digit. *)
Lemma falsy_scan allow_nan config v :
  decode allow_nan config = Some v ->
  Resolver.truthy v = false ->
  depth v = 0%nat /\ forall fuel, (longest_int_literal fuel config <= 1)%nat.
Proof.
  intros Hd Hf. split; [destruct v; try reflexivity; discriminate|].
  apply scan_ws. unfold decode, parse_document in Hd.
  destruct (parse_value allow_nan (fuel_for (skip_ws config)) (skip_ws config))
    as [v0 r| |] eqn:Hp; try discriminate.
  destruct (skip_ws r) eqn:Hr; [|discriminate]. injection Hd as ->.
  unfold fuel_for in Hp. rewrite Nat.add_comm in Hp. cbn [Nat.add parse_value] in Hp.
  destruct (skip_ws config) as [|c s]; [discriminate|].
  assert (Hrest : forall fuel, (longest_int_literal fuel r <= 1)%nat)
    by (intros f; rewrite (scan_blank r Hr); lia).
  destruct (c =? 34) eqn:H34.
  { destruct (parse_chars s) as [cs r1| |] eqn:Hcs; try discriminate.
    injection Hp as <- ->. destruct cs; [|discriminate].
    intros [|fuel]; [cbn; lia|]. cbn [longest_int_literal]. rewrite H34, Hcs.
    apply Hrest. }
  destruct (c =? 91).
  { destruct (skip_ws s) as [|c1 r1]; [discriminate|].
    destruct (c1 =? 93); [injection Hp as <- _; discriminate|].
    destruct (parse_elements _ _ _); try discriminate.
    injection Hp as <- _; discriminate. }
  destruct (c =? 123).
  { destruct (skip_ws s) as [|c1 r1]; [discriminate|].
    destruct (c1 =? 125); [injection Hp as <- _; discriminate|].
    destruct (parse_members _ _ _); try discriminate.
    injection Hp as <- _; discriminate. }
  destruct (parse_keyword (keywords allow_nan) (c :: s)) as [[v1 r1]|] eqn:Hk.
  - injection Hp as -> ->.
    unfold keywords in Hk. cbn [app parse_keyword] in Hk.
    destruct (strip_prefix (txt "null") (c :: s)) eqn:H1.
    { injection Hk as _ <-. rewrite (strip_prefix_app _ _ _ H1).
      now apply scan_plain. }
    destruct (strip_prefix (txt "true") (c :: s)) eqn:H2.
    { injection Hk as <- _. discriminate. }
    destruct (strip_prefix (txt "false") (c :: s)) eqn:H3.
    { injection Hk as _ <-. rewrite (strip_prefix_app _ _ _ H3).
      now apply scan_plain. }
    destruct allow_nan; cbn [parse_keyword] in Hk; [|discriminate].
    destruct (strip_prefix (txt "NaN") (c :: s)) eqn:H4.
    { injection Hk as _ <-. rewrite (strip_prefix_app _ _ _ H4).
      now apply scan_plain. }
    destruct (strip_prefix (txt "Infinity") (c :: s)) eqn:H5.
    { injection Hk as <- _. discriminate. }
    destruct (strip_prefix (txt "-Infinity") (c :: s)) eqn:H6; [|discriminate].
    injection Hk as <- _. discriminate.
  - destruct (parse_number (c :: s)) as [n r1| |] eqn:Hn; try discriminate.
    injection Hp as <- ->.
    destruct (parse_number_decimal _ _ _ Hn) as (neg & m & e & ->).
    cbn [Resolver.truthy] in Hf. apply negb_false_iff in Hf.
    intros [|fuel]; [cbn; lia|]. cbn [longest_int_literal]. rewrite H34.
    destruct (is_digit c || (c =? 45)) eqn:Hc.
    + rewrite Hn, (scan_blank r Hr), Nat.max_0_r.
      exact (zero_is_one_digit _ _ _ _ _ Hn Hf).
    + apply orb_false_iff in Hc as [Hd H45]. unfold parse_number in Hn.
      rewrite H45 in Hn. unfold parse_int in Hn.
      replace (c =? 48) with false in Hn; [now rewrite Hd in Hn|].
      symmetry. apply N.eqb_neq. intros ->. discriminate.
Qed.

(** A falsy value passes under every interpreter. *)
Lemma falsy_within_limits py config v :
  decode true config = Some v ->
  Resolver.truthy v = false ->
  json_loads py config = Some v.
Proof.
  intros Hd Hf. destruct (falsy_scan true config v Hd Hf) as [H0 H1].
  unfold json_loads, within_limits. rewrite Hd, H0. cbn [Nat.leb andb].
  destruct (int_max_str_digits py) as [|n] eqn:Hn; [reflexivity|].
  cbn [Nat.eqb orb]. replace (_ <=? S n)%nat with true; [reflexivity|].
  symmetry. apply Nat.leb_le. specialize (H1 (length config)). lia.
Qed.

(** The limits at work: nesting beyond the limit and an integer literal
    of too many digits are refused; a float of as many digits is not. *)
Example json_loads_limits :
  map (fun doc => match json_loads Sample.cpython doc with Some _ => true | None => false end)
      [ repeat 91 990 ++ repeat 93 990;
        repeat 91 2000 ++ repeat 93 2000;
        repeat 49 4300;
        repeat 49 4301;
        txt "[-" ++ repeat 49 4301 ++ txt "]";
        txt "1." ++ repeat 49 5000;
        dq ++ repeat 49 5000 ++ dq ]
  = [true; false; true; false; false; true; true]
  /\ json_loads (Interpreter 990 0) (repeat 49 4301) <> None.
Proof. split; [vm_compute; reflexivity|vm_compute; discriminate]. Qed.

End PythonFacts.

(** * Properties of the Bootstrap Resolver *)

Section ResolverFacts.

Import Resolver Props.


Variable JSON_parse : text -> error + JSON.value.

(** [initApp] never throws: its body is one [try]. *)
Lemma initApp_normal b config p : exists p', initApp b config p = (Normal tt, p').
Proof. destruct b; cbv; eauto. Qed.

Lemma initApp_fails b config p e :
  engine_failure b = Some e ->
  initApp b config p =
    (Normal tt,
     Page (setupScreen_opacity p) (setupScreen_display p)
       (txt "Failed to initialize viewer: " ++ message e) display_block
       (dropZone_dragover p)
       (match b with constructor_throws _ => window_renderer p | _ => Some config end)
       (app_rendered p) (constructed p ++ [config])
       (console p ++ [console_error (txt "Initialization Failed:") e])
       (timers p) (uncaught p)).
Proof. destruct b; intros [= <-]; reflexivity. Qed.

Lemma initApp_renders config p :
  initApp render_resolves config p =
    (Normal tt,
     Page opacity_0 (setupScreen_display p) (errorMsg_textContent p) (errorMsg_display p)
       (dropZone_dragover p) (Some config) (Some config) (constructed p ++ [config])
       (console p) (S (timers p)) (uncaught p)).
Proof. reflexivity. Qed.

Lemma handleFile_invalid b t e p :
  JSON_parse t = inl e ->
  handleFile JSON_parse b (readable t) p = (Normal tt, shows (txt "Invalid JSON file") p).
Proof.
  intros He. unfold handleFile, try_catch, bind, JSON_parse_stmt. now rewrite He.
Qed.

Lemma handleFile_valid b t config p :
  JSON_parse t = inr config ->
  handleFile JSON_parse b (readable t) p = (Normal tt, snd (initApp b config p)).
Proof.
  intros He. unfold handleFile, try_catch, bind, JSON_parse_stmt, call_async.
  rewrite He. cbn [ret]. now destruct (initApp_normal b config p) as [p' ->].
Qed.

Lemma on_drop_first b f others p :
  on_drop JSON_parse b (f :: others) p = handleFile JSON_parse b f (undragged p).
Proof. reflexivity. Qed.

Lemma loadPastedConfig_invalid b v e p :
  truthy_string (trim v) = true ->
  JSON_parse (trim v) = inl e ->
  loadPastedConfig JSON_parse b v p = (Normal tt, shows (txt "Invalid JSON text") p).
Proof.
  intros Hv He. unfold loadPastedConfig, try_catch, bind, JSON_parse_stmt.
  rewrite Hv. cbn [negb]. now rewrite He.
Qed.

Lemma loadPastedConfig_valid b v config p :
  truthy_string (trim v) = true ->
  JSON_parse (trim v) = inr config ->
  loadPastedConfig JSON_parse b v p = (Normal tt, snd (initApp b config p)).
Proof.
  intros Hv He. unfold loadPastedConfig, try_catch, bind, JSON_parse_stmt, call_async.
  rewrite Hv. cbn [negb]. rewrite He. cbn [ret].
  now destruct (initApp_normal b config p) as [p' ->].
Qed.

Lemma handle_invalid p s b e :
  blank_paste s = false ->
  JSON_parse (submitted_text s) = inl e ->
  handle JSON_parse p (submit s b) = shows (invalid_message s) (received s p).
Proof.
  intros Hb He. unfold handle, dispatch.
  destruct s; cbn [submit listener submitted_text blank_paste received invalid_message] in *.
  - rewrite on_drop_first, (handleFile_invalid _ _ e); auto.
  - unfold on_change. rewrite (handleFile_invalid _ _ e); auto.
  - apply negb_false_iff in Hb. rewrite (loadPastedConfig_invalid _ _ e); auto.
Qed.

Lemma handle_valid p s b config :
  blank_paste s = false ->
  JSON_parse (submitted_text s) = inr config ->
  handle JSON_parse p (submit s b) = snd (initApp b config (received s p)).
Proof.
  intros Hb He. unfold handle, dispatch.
  destruct s; cbn [submit listener submitted_text blank_paste received] in *.
  - rewrite on_drop_first, (handleFile_valid _ _ config); auto.
  - unfold on_change. rewrite (handleFile_valid _ _ config); auto.
  - apply negb_false_iff in Hb. rewrite (loadPastedConfig_valid _ _ config); auto.
Qed.

Lemma state_of_shows msg p : state_of (shows msg p) = state_of p.
Proof. reflexivity. Qed.

Lemma state_of_received s p : state_of (received s p) = state_of p.
Proof. now destruct s. Qed.

Lemma constructed_initApp b config p :
  constructed (snd (initApp b config p)) = constructed p ++ [config].
Proof. now destruct b. Qed.

Lemma uncaught_initApp b config p : uncaught (snd (initApp b config p)) = uncaught p.
Proof. now destruct b. Qed.

Lemma constructed_received s p : constructed (received s p) = constructed p.
Proof. now destruct s. Qed.

Lemma uncaught_received s p : uncaught (received s p) = uncaught p.
Proof. now destruct s. Qed.

(** A submission that parses reaches the engine; the page is rendering
    when the engine renders it. *)
Lemma valid_submission p s b config :
  blank_paste s = false ->
  JSON_parse (submitted_text s) = inr config ->
  let p' := handle JSON_parse p (submit s b) in
  uncaught p' = uncaught p
  /\ constructed p' = constructed p ++ [config]
  /\ (b = render_resolves ->
      state_of p' = rendering /\ window_renderer p' = Some config
      /\ app_rendered p' = Some config).
Proof.
  intros Hb He. cbv zeta. rewrite (handle_valid _ _ _ config Hb He).
  rewrite uncaught_initApp, uncaught_received, constructed_initApp, constructed_received.
  repeat split; try reflexivity; subst b; reflexivity.
Qed.

(** White space only, for [trim]. *)
Lemma trim_start_spaces v : forallb is_js_space v = true -> trim_start v = [].
Proof.
  induction v as [|c v IH]; [reflexivity|]. cbn [forallb trim_start].
  intros [Hc Hv]%andb_true_iff. rewrite Hc. auto.
Qed.

Lemma trim_spaces v : forallb is_js_space v = true -> trim v = [].
Proof. intros H. unfold trim. rewrite (trim_start_spaces v H). reflexivity. Qed.

Lemma trim_start_head v : trim_start v = [] \/ exists c r, trim_start v = c :: r /\ is_js_space c = false.
Proof.
  induction v as [|c v IH]; [now left|]. cbn [trim_start].
  destruct (is_js_space c) eqn:Hc; [exact IH|]. right. eauto.
Qed.

Lemma trim_start_nil v : trim_start v = [] -> forallb is_js_space v = true.
Proof.
  induction v as [|c v IH]; [reflexivity|]. cbn [trim_start forallb].
  destruct (is_js_space c); [exact IH|discriminate].
Qed.

(** [trim] leaves nothing exactly of the texts made of white space. *)
Lemma trim_nil_iff v : trim v = [] <-> forallb is_js_space v = true.
Proof.
  split; [|apply trim_spaces]. unfold trim. intros H.
  apply (f_equal (@rev N)) in H. rewrite rev_involutive in H. cbn [rev] in H.
  apply trim_start_nil in H.
  destruct (trim_start_head v) as [Hv|(c & r & Hv & Hc)]; [now apply trim_start_nil|].
  rewrite Hv in H. cbn [rev] in H. rewrite forallb_app in H.
  apply andb_true_iff in H as [_ H]. cbn in H. rewrite Hc in H. discriminate.
Qed.

(** No listener lets an exception out. *)
Lemma handleFile_uncaught b f p :
  exists p', handleFile JSON_parse b f p = (Normal tt, p') /\ uncaught p' = uncaught p.
Proof.
  destruct f as [t|]; [|eexists; split; reflexivity].
  destruct (JSON_parse t) as [e|config] eqn:He.
  - rewrite (handleFile_invalid _ _ e _ He). eauto.
  - rewrite (handleFile_valid _ _ config _ He). eexists; split; [reflexivity|].
    apply uncaught_initApp.
Qed.

Lemma listener_uncaught ev p :
  exists p', listener JSON_parse ev p = (Normal tt, p') /\ uncaught p' = uncaught p.
Proof.
  destruct ev as [| |files b|files b|v b|]; cbn [listener].
  - eexists; split; reflexivity.
  - eexists; split; reflexivity.
  - destruct files as [|f others]; [eexists; split; reflexivity|].
    rewrite on_drop_first. apply (handleFile_uncaught b f (undragged p)).
  - destruct files as [|f others]; [eexists; split; reflexivity|].
    apply handleFile_uncaught.
  - destruct (truthy_string (trim v)) eqn:Hv.
    + destruct (JSON_parse (trim v)) as [e|config] eqn:He.
      * rewrite (loadPastedConfig_invalid _ _ e _ Hv He). eauto.
      * rewrite (loadPastedConfig_valid _ _ config _ Hv He). eexists; split; [reflexivity|].
        apply uncaught_initApp.
    + unfold loadPastedConfig, try_catch. rewrite Hv. eauto.
  - unfold on_timeout. destruct (timers p); eexists; split; reflexivity.
Qed.

Lemma handle_uncaught ev p : uncaught (handle JSON_parse p ev) = uncaught p.
Proof.
  unfold handle, dispatch.
  now destruct (listener_uncaught ev p) as (p' & -> & ->).
Qed.

Lemma run_uncaught evs p : uncaught (run JSON_parse evs p) = uncaught p.
Proof.
  revert p. induction evs as [|ev evs IH]; intros p; [reflexivity|].
  cbn [run fold_left]. fold (run JSON_parse evs (handle JSON_parse p ev)).
  now rewrite IH, handle_uncaught.
Qed.

(** The auto-load sequence, by cases. *)
Lemma loaded_without_url D fetch b :
  loaded JSON_parse D None fetch b =
    if truthy D
    then snd (initApp b D
                (console_after (console_log (txt "Using embedded default config")) initial_page))
    else initial_page.
Proof.
  unfold loaded, dispatch, autoload, bind, call_async. cbn [ret].
  destruct (truthy D); [|reflexivity].
  cbn [console_write modify].
  now destruct b.
Qed.

Lemma loaded_from_url D url fetch b body config :
  truthy_string url = true ->
  fetch url = fetch_resolves true (inr body) ->
  JSON_parse body = inr config ->
  loaded JSON_parse D (Some url) fetch b = snd (initApp b config initial_page).
Proof.
  intros Hu Hf Hp.
  unfold loaded, dispatch, autoload, bind, try_catch, call_async, fetch_stmt, resp_json,
    JSON_parse_stmt.
  rewrite Hu, Hf. cbn [ret fst snd negb]. rewrite Hp. cbn [ret].
  now destruct b.
Qed.

Lemma loaded_after_url_failure D url fetch b e :
  truthy_string url = true ->
  url_failure JSON_parse (fetch url) = Some e ->
  loaded JSON_parse D (Some url) fetch b =
    console_after (console_warn (txt "URL config failed, trying local...") e)
      (loaded JSON_parse D None fetch b).
Proof.
  intros Hu Hf. rewrite loaded_without_url.
  unfold loaded, dispatch, autoload, bind, try_catch, call_async, fetch_stmt, resp_json,
    JSON_parse_stmt.
  rewrite Hu. unfold url_failure in Hf.
  destruct (fetch url) as [e0|ok [e1|body]].
  - injection Hf as ->. cbn [throw]. destruct (truthy D); [|reflexivity]. now destruct b.
  - destruct ok; injection Hf as <-; cbn [ret throw fst snd negb];
      (destruct (truthy D); [|reflexivity]); now destruct b.
  - destruct ok.
    + cbn [ret throw fst snd negb].
      destruct (JSON_parse body) as [e2|config]; [|discriminate].
      injection Hf as ->. cbn [throw]. destruct (truthy D); [|reflexivity]. now destruct b.
    + injection Hf as <-. cbn [ret throw fst snd negb].
      destruct (truthy D); [|reflexivity]. now destruct b.
Qed.

(** C1. When the page URL carries a config parameter (a non-empty value,
    which is what makes the script fetch at all), the fetch answers with a
    success status and the body parses as JSON, the page after loading is
    the page [initApp] leaves when given the fetched configuration: the
    engine was constructed once, with that configuration, and the page is
    the same whatever the embedded default is. *)
Theorem url_config_takes_priority D url fetch b body config :
  truthy_string url = true ->
  fetch url = fetch_resolves true (inr body) ->
  JSON_parse body = inr config ->
  let p := loaded JSON_parse D (Some url) fetch b in
  p = snd (initApp b config initial_page)
  /\ constructed p = [config]
  /\ ~ In (console_log (txt "Using embedded default config")) (console p)
  /\ forall D', loaded JSON_parse D' (Some url) fetch b = p.
Proof.
  intros Hu Hf Hp. cbv zeta.
  rewrite (loaded_from_url D url fetch b body config Hu Hf Hp).
  split; [reflexivity|]. split; [now destruct b|]. split.
  - destruct b; cbn; intros H; repeat destruct H as [H|H]; try discriminate; auto.
  - intros D'. apply (loaded_from_url D' url fetch b body config Hu Hf Hp).
Qed.

(** C2. When the config parameter is present and its source fails (the
    fetch rejects, the status is not a success, or the body does not
    parse), the page after loading is the page of a session without the
    parameter, with one warning more in the console: nothing is thrown,
    the failure shows no error text, and an embedded default that is
    present (truthy, the script's own test) is given to the engine and
    rendered. *)
Theorem url_failure_falls_through D url fetch b e :
  truthy_string url = true ->
  url_failure JSON_parse (fetch url) = Some e ->
  let p := loaded JSON_parse D (Some url) fetch b in
  p = console_after (console_warn (txt "URL config failed, trying local...") e)
        (loaded JSON_parse D None fetch b)
  /\ uncaught p = []
  /\ (truthy D = true ->
      constructed p = [D]
      /\ (b = render_resolves ->
          state_of p = rendering /\ app_rendered p = Some D
          /\ errorMsg_display p = display_none))
  /\ (truthy D = false ->
      state_of p = setup_visible /\ constructed p = []
      /\ errorMsg_display p = display_none).
Proof.
  intros Hu Hf. cbv zeta.
  rewrite (loaded_after_url_failure D url fetch b e Hu Hf), loaded_without_url.
  split; [reflexivity|]. split; [now destruct (truthy D), b|]. split.
  - intros ->. split; [now destruct b|]. now intros ->.
  - now intros ->.
Qed.

(** C3, as the script has it. A dropped or picked file whose text is not
    JSON, and a pasted text that is not blank and is not JSON once
    trimmed, leave the setup surface showing, with the inline error of
    the mechanism and nothing given to the engine. A later submission,
    from any of the three mechanisms, that is not blank and parses gives
    the parsed configuration to the engine, and the page is rendering
    when the engine renders it. *)
Theorem invalid_submission_then_valid p s b e :
  state_of p = setup_visible ->
  blank_paste s = false ->
  JSON_parse (submitted_text s) = inl e ->
  let p1 := handle JSON_parse p (submit s b) in
  state_of p1 = setup_visible
  /\ errorMsg_display p1 = display_block
  /\ errorMsg_textContent p1 = invalid_message s
  /\ constructed p1 = constructed p
  /\ forall s' b' config,
       blank_paste s' = false ->
       JSON_parse (submitted_text s') = inr config ->
       let p2 := handle JSON_parse p1 (submit s' b') in
       constructed p2 = constructed p1 ++ [config]
       /\ (b' = render_resolves ->
           state_of p2 = rendering /\ window_renderer p2 = Some config
           /\ app_rendered p2 = Some config).
Proof.
  intros Hp Hb He. cbv zeta. rewrite (handle_invalid p s b e Hb He).
  rewrite state_of_shows, state_of_received.
  split; [exact Hp|]. split; [reflexivity|]. split; [reflexivity|].
  split; [apply constructed_received|].
  intros s' b' config Hb' He'.
  destruct (valid_submission (shows (invalid_message s) (received s p)) s' b' config Hb' He')
    as (_ & Hc & Hr).
  split; [exact Hc|exact Hr].
Qed.

(** C4. When the engine's constructor throws or its render rejects,
    [initApp] ends normally: the error is written to the console, its
    message is shown in the error paragraph of the setup surface, whose
    own styles are untouched, nothing reaches the top level uncaught, and
    a later submission that parses is given to the engine and rendered
    when the engine renders it. *)
Theorem render_failure_is_contained p b config e :
  engine_failure b = Some e ->
  exists p1,
    initApp b config p = (Normal tt, p1)
    /\ uncaught p1 = uncaught p
    /\ console p1 = console p ++ [console_error (txt "Initialization Failed:") e]
    /\ errorMsg_textContent p1 = txt "Failed to initialize viewer: " ++ message e
    /\ errorMsg_display p1 = display_block
    /\ setupScreen_opacity p1 = setupScreen_opacity p
    /\ setupScreen_display p1 = setupScreen_display p
    /\ forall s b' config',
         blank_paste s = false ->
         JSON_parse (submitted_text s) = inr config' ->
         let p2 := handle JSON_parse p1 (submit s b') in
         uncaught p2 = uncaught p
         /\ constructed p2 = constructed p1 ++ [config']
         /\ (b' = render_resolves ->
             state_of p2 = rendering /\ window_renderer p2 = Some config'
             /\ app_rendered p2 = Some config').
Proof.
  intros He. eexists. split; [apply (initApp_fails b config p e He)|].
  do 6 (split; [reflexivity|]).
  intros s b' config' Hb' He'.
  match goal with |- let p2 := handle _ ?p1 _ in _ =>
    destruct (valid_submission p1 s b' config' Hb' He') as (Hu & Hc & Hr)
  end.
  split; [exact Hu|]. split; [exact Hc|exact Hr].
Qed.

Lemma untouched_shows msg p : untouched p -> untouched (shows msg p).
Proof. auto. Qed.

Lemma untouched_undragged p : untouched p -> untouched (undragged p).
Proof. auto. Qed.

Lemma handle_untouched p ev :
  supplies_json JSON_parse ev = false -> untouched p -> untouched (handle JSON_parse p ev).
Proof.
  intros Hev Hp. unfold handle, dispatch.
  destruct ev as [| |files b|files b|v b|]; cbn [listener supplies_json] in *.
  - exact Hp.
  - exact Hp.
  - destruct files as [|[t|] others].
    + exact Hp.
    + rewrite on_drop_first. destruct (JSON_parse t) as [e|] eqn:Ht; [|discriminate].
      rewrite (handleFile_invalid _ _ e _ Ht). exact Hp.
    + exact Hp.
  - destruct files as [|[t|] others].
    + exact Hp.
    + unfold on_change. destruct (JSON_parse t) as [e|] eqn:Ht; [|discriminate].
      rewrite (handleFile_invalid _ _ e _ Ht). exact Hp.
    + exact Hp.
  - destruct (truthy_string (trim v)) eqn:Hv.
    + destruct (JSON_parse (trim v)) as [e|] eqn:Ht; [|discriminate].
      rewrite (loadPastedConfig_invalid _ _ e _ Hv Ht). exact Hp.
    + unfold loadPastedConfig, try_catch. rewrite Hv. exact Hp.
  - unfold on_timeout. destruct Hp as (H1 & H2 & H3). rewrite H3. now repeat split.
Qed.

Lemma run_untouched evs p :
  forallb (fun ev => negb (supplies_json JSON_parse ev)) evs = true ->
  untouched p -> untouched (run JSON_parse evs p).
Proof.
  revert p. induction evs as [|ev evs IH]; intros p Hevs Hp; [exact Hp|].
  cbn [forallb] in Hevs. apply andb_true_iff in Hevs as [Hev Hevs].
  apply negb_true_iff in Hev.
  cbn [run fold_left]. apply IH; [exact Hevs|]. now apply handle_untouched.
Qed.

(** C5. With no config parameter and an embedded default the script's
    test rejects, the page after loading shows the setup surface, and it
    still does after any run of events none of which carries user input
    that parses as JSON: drags, timer ticks, empty drops, files that
    cannot be read or do not parse, pastes that are blank or do not parse.
    Nothing is given to the engine and no timer is started. *)
Theorem setup_stays_until_valid_input D fetch b evs :
  truthy D = false ->
  forallb (fun ev => negb (supplies_json JSON_parse ev)) evs = true ->
  loaded JSON_parse D None fetch b = initial_page
  /\ let p := run JSON_parse evs (loaded JSON_parse D None fetch b) in
     state_of p = setup_visible /\ constructed p = [] /\ timers p = 0%nat.
Proof.
  intros HD Hevs. rewrite loaded_without_url, HD. split; [reflexivity|].
  apply (run_untouched evs initial_page Hevs). now repeat split.
Qed.

(** C9. Committing a paste area that holds nothing but white space does
    nothing: [loadPastedConfig] returns with the page as it was, whatever
    [JSON.parse] would have said of the text; any other paste that does
    not parse shows the inline error. *)
Theorem blank_paste_is_ignored b v p :
  forallb is_js_space v = true ->
  loadPastedConfig JSON_parse b v p = (Normal tt, p)
  /\ handle JSON_parse p (load_json_click v b) = p
  /\ forall v' e,
       truthy_string (trim v') = true ->
       JSON_parse (trim v') = inl e ->
       handle JSON_parse p (load_json_click v' b) = shows (txt "Invalid JSON text") p.
Proof.
  intros Hv. apply trim_spaces in Hv.
  assert (H : loadPastedConfig JSON_parse b v p = (Normal tt, p)).
  { unfold loadPastedConfig, try_catch. now rewrite Hv. }
  repeat split; [exact H| |].
  - unfold handle, dispatch. cbn [listener]. now rewrite H.
  - intros v' e Hv' He. unfold handle, dispatch. cbn [listener].
    now rewrite (loadPastedConfig_invalid _ _ e _ Hv' He).
Qed.

End ResolverFacts.

(** ** The properties at concrete sessions *)

Section ResolverInstances.

Import Resolver Props Sample Artifact.

Example JSON_parse_valid_text : JSON_parse_js valid_text = inr valid_config.
Proof. reflexivity. Qed.

Example JSON_parse_invalid_text : JSON_parse_js invalid_text = inl SyntaxError.
Proof. reflexivity. Qed.

Example trim_blank_text : trim blank_text = [].
Proof. reflexivity. Qed.

Example trim_padded : trim (blank_text ++ valid_text ++ blank_text) = valid_text.
Proof. reflexivity. Qed.

(** A URL that answers with [valid_text], over an embedded default. *)
Lemma url_config_takes_priority_witness :
  let p := loaded JSON_parse_js (JSON.Array []) (Some url) fetch_json render_resolves in
  p = snd (initApp render_resolves valid_config initial_page)
  /\ constructed p = [valid_config]
  /\ ~ In (console_log (txt "Using embedded default config")) (console p)
  /\ forall D', loaded JSON_parse_js D' (Some url) fetch_json render_resolves = p.
Proof.
  exact (url_config_takes_priority JSON_parse_js (JSON.Array []) url fetch_json
           render_resolves valid_text valid_config eq_refl eq_refl eq_refl).
Defined.

(** A URL that answers 404, over an embedded default. *)
Lemma url_failure_falls_through_witness :
  let D := JSON.Object [] in
  let p := loaded JSON_parse_js D (Some url) fetch_404 render_resolves in
  p = console_after
        (console_warn (txt "URL config failed, trying local...")
           (Error (txt "Failed to fetch config")))
        (loaded JSON_parse_js D None fetch_404 render_resolves)
  /\ constructed p = [D] /\ state_of p = rendering /\ app_rendered p = Some D.
Proof.
  destruct (url_failure_falls_through JSON_parse_js (JSON.Object []) url fetch_404
              render_resolves (Error (txt "Failed to fetch config")) eq_refl eq_refl)
    as (H1 & _ & H2 & _).
  destruct (H2 eq_refl) as (H3 & H4). destruct (H4 eq_refl) as (H5 & H6 & _).
  repeat split; assumption.
Defined.

(** C3 as stated fails on a paste of white space: the text is not JSON,
    and committing it shows no error. *)
Lemma blank_paste_shows_no_error :
  JSON_parse blank_text = None
  /\ JSON_parse_js blank_text = inl SyntaxError
  /\ errorMsg_display
       (handle JSON_parse_js initial_page (load_json_click blank_text render_resolves))
     = display_none.
Proof. repeat split. Qed.

(** [{"a":}] dropped on the fresh page, then [{"a":1}] pasted. *)
Lemma invalid_submission_then_valid_witness :
  let p1 := handle JSON_parse_js initial_page
              (submit (dropped invalid_text []) render_resolves) in
  let p2 := handle JSON_parse_js p1 (submit (pasted valid_text) render_resolves) in
  state_of p1 = setup_visible
  /\ errorMsg_display p1 = display_block
  /\ errorMsg_textContent p1 = txt "Invalid JSON file"
  /\ state_of p2 = rendering
  /\ window_renderer p2 = Some valid_config.
Proof.
  destruct (invalid_submission_then_valid JSON_parse_js initial_page
              (dropped invalid_text []) render_resolves SyntaxError eq_refl eq_refl eq_refl)
    as (H1 & H2 & H3 & _ & H4).
  destruct (H4 (pasted valid_text) render_resolves valid_config eq_refl eq_refl) as (_ & H5).
  destruct (H5 eq_refl) as (H6 & H7 & _).
  repeat split; assumption.
Defined.

(** A render that rejects, then [{"a":1}] picked. *)
Lemma render_failure_is_contained_witness :
  exists p1,
    initApp (render_rejects schema_error) (JSON.Object []) initial_page = (Normal tt, p1)
    /\ uncaught p1 = []
    /\ errorMsg_textContent p1
       = txt "Failed to initialize viewer: config.tables is required"
    /\ state_of p1 = setup_visible
    /\ state_of (handle JSON_parse_js p1 (submit (picked valid_text []) render_resolves))
       = rendering.
Proof.
  destruct (render_failure_is_contained JSON_parse_js initial_page
              (render_rejects schema_error) (JSON.Object []) schema_error eq_refl)
    as (p1 & H1 & H2 & _ & H3 & _ & H4 & H5 & H6).
  exists p1. split; [exact H1|]. split; [exact H2|]. split; [exact H3|].
  split; [unfold state_of; now rewrite H4, H5|].
  destruct (H6 (picked valid_text []) render_resolves valid_config eq_refl eq_refl)
    as (_ & _ & H7).
  now destruct (H7 eq_refl).
Defined.

(** A session without parameter and with [null] embedded, through drags,
    a file that does not parse, a blank paste, a file that cannot be
    read, an empty pick and a timer tick. *)
Lemma setup_stays_until_valid_input_witness :
  let evs :=
    [ dragover; dragleave; drop [readable invalid_text] render_resolves;
      load_json_click blank_text render_resolves; drop [unreadable] render_resolves;
      change [] render_resolves; load_json_click invalid_text render_resolves; timeout ] in
  let p := run JSON_parse_js evs (loaded JSON_parse_js JSON.Null None fetch_json render_resolves) in
  state_of p = setup_visible /\ constructed p = [] /\ timers p = 0%nat.
Proof.
  cbv zeta.
  exact (proj2 (setup_stays_until_valid_input JSON_parse_js JSON.Null fetch_json render_resolves
    [ dragover; dragleave; drop [readable invalid_text] render_resolves;
      load_json_click blank_text render_resolves; drop [unreadable] render_resolves;
      change [] render_resolves; load_json_click invalid_text render_resolves; timeout ]
    eq_refl eq_refl)).
Defined.

(** A paste of white space on a page that already shows an error. *)
Lemma blank_paste_is_ignored_witness :
  let p := shows (txt "Invalid JSON file") initial_page in
  loadPastedConfig JSON_parse_js render_resolves blank_text p = (Normal tt, p)
  /\ handle JSON_parse_js p (load_json_click blank_text render_resolves) = p.
Proof.
  destruct (blank_paste_is_ignored JSON_parse_js render_resolves blank_text
              (shows (txt "Invalid JSON file") initial_page) eq_refl) as (H1 & H2 & _).
  split; assumption.
Defined.

End ResolverInstances.

(** * Properties of the Assembler *)

Section BuildFacts.

Import Build Props.

Variable ROOT_DIR : string.

Lemma read_file_reads path w :
  reads (files w) path = true ->
  read_file path w = (Normal (content_at (files w) path), w).
Proof.
  unfold reads, content_at, read_file. now destruct (files w !! path) as [[c|]|].
Qed.

Lemma read_file_fails path w :
  reads (files w) path = false -> exists e, read_file path w = (Throw e, w).
Proof.
  unfold reads, read_file. destruct (files w !! path) as [[c|]|]; [discriminate|eauto..].
Qed.

Lemma bundle_reads js_files js_content w :
  modules_readable ROOT_DIR (files w) js_files = true ->
  bundle ROOT_DIR js_files js_content w =
    (Normal (js_content ++ bundled ROOT_DIR (files w) js_files),
     World (files w) (stdout w ++ map bundling_line js_files) (unwritable w) (python w)).
Proof.
  revert js_content w. induction js_files as [|f rest IH]; intros acc w Hm.
  - cbn. rewrite !app_nil_r. now destruct w.
  - cbn [modules_readable forallb] in Hm. apply andb_true_iff in Hm as [Hf Hrest].
    cbn [bundle]. unfold bind at 1. cbn [print modify].
    unfold bind at 1. rewrite read_file_reads by exact Hf.
    rewrite IH by exact Hrest. cbn [files stdout unwritable python map bundled concat].
    unfold bundled, module_entry. f_equal; [f_equal|f_equal].
    + now rewrite <- !app_assoc.
    + now rewrite <- app_assoc.
Qed.

Lemma bundle_fails js_files js_content w :
  modules_readable ROOT_DIR (files w) js_files = false ->
  exists e w', bundle ROOT_DIR js_files js_content w = (Throw e, w') /\ files w' = files w.
Proof.
  revert js_content w. induction js_files as [|f rest IH]; intros acc w Hm; [discriminate|].
  cbn [modules_readable forallb] in Hm. cbn [bundle]. unfold bind at 1. cbn [print modify].
  unfold bind at 1. fold (bundling_line f).
  destruct (reads (files w) (path_join (JS_DIR ROOT_DIR) f)) eqn:Hf.
  - rewrite (read_file_reads _ (World (files w) (stdout w ++ [bundling_line f]) (unwritable w) (python w)) Hf).
    cbn [files unwritable python].
    destruct (IH ((acc ++ marker f) ++ content_at (files w) (path_join (JS_DIR ROOT_DIR) f) ++ nl)
                (World (files w) (stdout w ++ [bundling_line f]) (unwritable w) (python w)) Hm) as (e & w' & -> & Hw').
    eauto.
  - destruct (read_file_fails _ (World (files w) (stdout w ++ [bundling_line f]) (unwritable w) (python w)) Hf)
      as [e ->]. eauto.
Qed.

Lemma build_css_unreadable js_files w :
  reads (files w) (CSS_PATH ROOT_DIR) = false ->
  exists e,
    build_with ROOT_DIR js_files w = (Throw e, World (files w) (stdout w ++ preamble ROOT_DIR) (unwritable w) (python w)).
Proof.
  intros Hc. unfold build_with. unfold bind at 1. cbn [print modify].
  unfold bind at 1. cbn [print modify files stdout unwritable python]. unfold bind at 1.
  match goal with |- context [read_file ?path ?w0] =>
    destruct (read_file_fails path w0 Hc) as [e ->]
  end.
  exists e. now rewrite <- app_assoc.
Qed.

Lemma build_config_unusable js_files w :
  reads (files w) (CSS_PATH ROOT_DIR) = true ->
  config_usable ROOT_DIR (python w) (files w) = false ->
  exists e,
    build_with ROOT_DIR js_files w =
      (Normal tt,
       World (files w) (stdout w ++ preamble ROOT_DIR ++ [config_line ROOT_DIR; ErrorReadingConfig e]) (unwritable w) (python w)).
Proof.
  intros Hc Hu. unfold build_with. unfold bind at 1. cbn [print modify].
  unfold bind at 1. cbn [print modify files stdout unwritable python]. unfold bind at 1.
  match goal with |- context [read_file ?path ?w0] =>
    rewrite (read_file_reads path w0 Hc)
  end.
  unfold bind at 1. cbn [print modify files stdout unwritable python]. unfold bind at 1.
  unfold try_catch, bind, read_file, json_loads_stmt. cbn [files stdout unwritable python].
  unfold config_usable in Hu.
  destruct (files w !! CONFIG_PATH ROOT_DIR) as [[c|]|].
  - cbn [files stdout unwritable python].
    destruct (json_loads (python w) c); [discriminate|]. cbn.
    eexists. now rewrite <- !app_assoc.
  - cbn. eexists. now rewrite <- !app_assoc.
  - cbn. eexists. now rewrite <- !app_assoc.
Qed.

Lemma build_checks_config js_files w :
  reads (files w) (CSS_PATH ROOT_DIR) = true ->
  config_usable ROOT_DIR (python w) (files w) = true ->
  build_with ROOT_DIR js_files w =
    (js_content <- bundle ROOT_DIR js_files [] ;;
     write_file (OUTPUT_FILE ROOT_DIR)
       (html_template (content_at (files w) (CSS_PATH ROOT_DIR))
          (content_at (files w) (CONFIG_PATH ROOT_DIR)) js_content) ;;;
     print (success_line ROOT_DIR))%eff
      (World (files w) (stdout w ++ preamble ROOT_DIR ++ [config_line ROOT_DIR]) (unwritable w) (python w)).
Proof.
  intros Hc Hu. unfold build_with. unfold bind at 1. cbn [print modify].
  unfold bind at 1. cbn [print modify files stdout unwritable python]. unfold bind at 1.
  match goal with |- context [read_file ?path ?w0] =>
    rewrite (read_file_reads path w0 Hc)
  end.
  unfold bind at 1. cbn [print modify files stdout unwritable python]. unfold bind at 1.
  unfold try_catch, bind at 1 2, read_file, json_loads_stmt. cbn [files stdout unwritable python].
  unfold config_usable in Hu.
  destruct (files w !! CONFIG_PATH ROOT_DIR) as [[c|]|] eqn:Hcfg; try discriminate.
  cbn [files stdout unwritable python].
  destruct (json_loads (python w) c); [|discriminate]. cbn [ret].
  replace (content_at (files w) (CONFIG_PATH ROOT_DIR)) with c
    by (unfold content_at; now rewrite Hcfg).
  unfold preamble, config_line, success_line. now rewrite <- !app_assoc.
Qed.

Lemma build_module_unreadable js_files w :
  reads (files w) (CSS_PATH ROOT_DIR) = true ->
  config_usable ROOT_DIR (python w) (files w) = true ->
  modules_readable ROOT_DIR (files w) js_files = false ->
  exists e w', build_with ROOT_DIR js_files w = (Throw e, w') /\ files w' = files w.
Proof.
  intros Hc Hu Hm. rewrite (build_checks_config js_files w Hc Hu). unfold bind at 1.
  match goal with |- context [bundle _ _ _ ?w0] =>
    destruct (bundle_fails js_files [] w0 Hm) as (e & w' & -> & Hw')
  end.
  eauto.
Qed.

Lemma build_succeeds js_files w :
  reads (files w) (CSS_PATH ROOT_DIR) = true ->
  config_usable ROOT_DIR (python w) (files w) = true ->
  modules_readable ROOT_DIR (files w) js_files = true ->
  OUTPUT_FILE ROOT_DIR ∉ unwritable w ->
  build_with ROOT_DIR js_files w =
    (Normal tt,
     World (<[OUTPUT_FILE ROOT_DIR := File (document ROOT_DIR (files w) js_files)]> (files w))
       (stdout w ++ preamble ROOT_DIR ++ [config_line ROOT_DIR] ++ map bundling_line js_files
        ++ [success_line ROOT_DIR]) (unwritable w) (python w)).
Proof.
  intros Hc Hu Hm Hw. rewrite (build_checks_config js_files w Hc Hu). unfold bind at 1.
  match goal with |- context [bundle _ _ _ ?w0] =>
    rewrite (bundle_reads js_files [] w0 Hm)
  end.
  cbn [files stdout unwritable python app]. unfold bind, write_file, print, modify.
  cbn [files stdout unwritable python]. rewrite decide_False by exact Hw.
  cbn [files stdout unwritable python]. unfold document. now rewrite <- !app_assoc.
Qed.

Lemma build_output_unwritable js_files w :
  reads (files w) (CSS_PATH ROOT_DIR) = true ->
  config_usable ROOT_DIR (python w) (files w) = true ->
  modules_readable ROOT_DIR (files w) js_files = true ->
  OUTPUT_FILE ROOT_DIR ∈ unwritable w ->
  build_with ROOT_DIR js_files w =
    (Throw (WriteError (OUTPUT_FILE ROOT_DIR)),
     World (files w)
       (stdout w ++ preamble ROOT_DIR ++ [config_line ROOT_DIR] ++ map bundling_line js_files)
       (unwritable w) (python w)).
Proof.
  intros Hc Hu Hm Hw. rewrite (build_checks_config js_files w Hc Hu). unfold bind at 1.
  match goal with |- context [bundle _ _ _ ?w0] =>
    rewrite (bundle_reads js_files [] w0 Hm)
  end.
  cbn [files stdout unwritable python app]. unfold bind, write_file.
  cbn [files stdout unwritable python]. rewrite decide_True by exact Hw.
  now rewrite <- !app_assoc.
Qed.

Lemma json_loads_blank py config : JSON.skip_ws config = [] -> json_loads py config = None.
Proof.
  intros H. unfold json_loads, JSON.decode, JSON.parse_document. now rewrite H.
Qed.

(** The config file is unusable when it is missing, when it cannot be
    read, or when [json.loads] rejects its text. *)
Lemma config_unusable_cases py fs :
  config_usable ROOT_DIR py fs = false <->
  fs !! CONFIG_PATH ROOT_DIR = None
  \/ fs !! CONFIG_PATH ROOT_DIR = Some Unreadable
  \/ exists content,
       fs !! CONFIG_PATH ROOT_DIR = Some (File content) /\ json_loads py content = None.
Proof.
  unfold config_usable. destruct (fs !! CONFIG_PATH ROOT_DIR) as [[c|]|].
  - destruct (json_loads py c) eqn:Hc; split.
    + discriminate.
    + intros [H|[H|(c' & [= <-] & H)]]; try discriminate. congruence.
    + intros _. right. right. now exists c.
    + reflexivity.
  - split; [auto|reflexivity].
  - split; [auto|reflexivity].
Qed.

(** What [main] ends in, by cases on what could be read. *)
Lemma main_config_unusable w :
  config_usable ROOT_DIR (python w) (files w) = false ->
  files (snd (main ROOT_DIR w)) = files w
  /\ (reads (files w) (CSS_PATH ROOT_DIR) = true ->
      exists e,
        main ROOT_DIR w =
          (0%Z, World (files w)
                  (stdout w ++ preamble ROOT_DIR
                   ++ [config_line ROOT_DIR; ErrorReadingConfig e]) (unwritable w) (python w)))
  /\ (reads (files w) (CSS_PATH ROOT_DIR) = false -> fst (main ROOT_DIR w) = 1%Z).
Proof.
  intros Hu. unfold main, build.
  destruct (reads (files w) (CSS_PATH ROOT_DIR)) eqn:Hc.
  - destruct (build_config_unusable js_files w Hc Hu) as [e ->].
    split; [reflexivity|]. split; [eauto|discriminate].
  - destruct (build_css_unreadable js_files w Hc) as [e ->].
    split; [reflexivity|]. split; [discriminate|reflexivity].
Qed.

Lemma main_writes_or_not w :
  files (snd (main ROOT_DIR w)) = files w
  \/ (reads (files w) (CSS_PATH ROOT_DIR) = true
      /\ config_usable ROOT_DIR (python w) (files w) = true
      /\ modules_readable ROOT_DIR (files w) js_files = true
      /\ (OUTPUT_FILE ROOT_DIR ∉ unwritable w)
      /\ main ROOT_DIR w =
           (0%Z,
            World (<[OUTPUT_FILE ROOT_DIR := File (document ROOT_DIR (files w) js_files)]>
                     (files w))
              (stdout w ++ preamble ROOT_DIR ++ [config_line ROOT_DIR]
               ++ map bundling_line js_files ++ [success_line ROOT_DIR]) (unwritable w) (python w))).
Proof.
  destruct (config_usable ROOT_DIR (python w) (files w)) eqn:Hu;
    [|left; apply (main_config_unusable w Hu)].
  unfold main, build.
  destruct (reads (files w) (CSS_PATH ROOT_DIR)) eqn:Hc.
  - destruct (modules_readable ROOT_DIR (files w) js_files) eqn:Hm.
    + destruct (decide (OUTPUT_FILE ROOT_DIR ∈ unwritable w)) as [Hw|Hw].
      * left. now rewrite (build_output_unwritable js_files w Hc Hu Hm Hw).
      * right. now rewrite (build_succeeds js_files w Hc Hu Hm Hw).
    + left. destruct (build_module_unreadable js_files w Hc Hu Hm) as (e & w' & -> & Hw').
      exact Hw'.
  - left. now destruct (build_css_unreadable js_files w Hc) as [e ->].
Qed.

(** The exception the [except] branch of [build] catches. *)
Lemma build_config_error js_files w :
  reads (files w) (CSS_PATH ROOT_DIR) = true ->
  config_usable ROOT_DIR (python w) (files w) = false ->
  build_with ROOT_DIR js_files w =
    (Normal tt,
     World (files w)
       (stdout w ++ preamble ROOT_DIR
        ++ [config_line ROOT_DIR;
            ErrorReadingConfig (Cases.config_error ROOT_DIR (files w))])
       (unwritable w) (python w)).
Proof.
  intros Hc Hu. unfold build_with. unfold bind at 1. cbn [print modify].
  unfold bind at 1. cbn [print modify files stdout unwritable python]. unfold bind at 1.
  match goal with |- context [read_file ?path ?w0] =>
    rewrite (read_file_reads path w0 Hc)
  end.
  unfold bind at 1. cbn [print modify files stdout unwritable python]. unfold bind at 1.
  unfold try_catch, bind, read_file, json_loads_stmt. cbn [files stdout unwritable python].
  unfold config_usable in Hu. unfold Cases.config_error.
  destruct (files w !! CONFIG_PATH ROOT_DIR) as [[c|]|].
  - cbn [files stdout unwritable python].
    destruct (json_loads (python w) c); [discriminate|]. cbn.
    now rewrite <- !app_assoc.
  - cbn. now rewrite <- !app_assoc.
  - cbn. now rewrite <- !app_assoc.
Qed.

(** Where the template takes the config text and the module text. *)
Lemma template_setup_ends :
  exists before, template_setup = before ++ txt "const DEFAULT_CONFIG = ".
Proof.
  exists (take (length template_setup - 23) template_setup). vm_compute. reflexivity.
Qed.

Lemma template_bundle_text :
  template_bundle =
    txt ";" ++ [10] ++ txt "        " ++ [10]
    ++ txt "        // 2. Bundled Application Logic" ++ [10] ++ txt "        ".
Proof. vm_compute. reflexivity. Qed.

Lemma template_init_starts :
  exists after,
    template_init = [10; 10] ++ txt "        // 3. Initialization Logic" ++ after.
Proof. exists (drop 36 template_init). vm_compute. reflexivity. Qed.

Lemma html_template_config css_content config_content js_content :
  exists before after,
    html_template css_content config_content js_content =
      before ++ txt "const DEFAULT_CONFIG = " ++ config_content ++ txt ";" ++ after.
Proof.
  destruct template_setup_ends as [before Hb].
  exists (template_head ++ css_content ++ before),
         (drop 1 template_bundle ++ js_content ++ template_init).
  unfold html_template. rewrite Hb, template_bundle_text. cbn [drop app txt].
  now rewrite <- !app_assoc.
Qed.

Lemma html_template_modules css_content config_content js_content :
  exists before after,
    html_template css_content config_content js_content =
      before ++ txt "// 2. Bundled Application Logic" ++ [10] ++ txt "        "
      ++ js_content ++ [10; 10] ++ txt "        // 3. Initialization Logic" ++ after.
Proof.
  destruct template_init_starts as [after Ha].
  exists (template_head ++ css_content ++ template_setup ++ config_content
          ++ take 19 template_bundle), after.
  unfold html_template. rewrite Ha, template_bundle_text.
  cbn [take app txt]. now rewrite <- !app_assoc.
Qed.

(** C6. The claim does not hold of the script: whenever the stylesheet
    was read and the config file is missing, cannot be read, or holds text
    [json.loads] refuses, [build] prints the exception and returns, and
    the run ends with exit status 0, nothing written. *)
Theorem config_failure_exits_with_status_0 w :
  reads (files w) (CSS_PATH ROOT_DIR) = true ->
  config_usable ROOT_DIR (python w) (files w) = false ->
  main ROOT_DIR w =
    (0%Z,
     World (files w)
       (stdout w ++ preamble ROOT_DIR
        ++ [config_line ROOT_DIR;
            ErrorReadingConfig (Cases.config_error ROOT_DIR (files w))])
       (unwritable w) (python w)).
Proof.
  intros Hc Hu. unfold main, build. now rewrite (build_config_error js_files w Hc Hu).
Qed.

(** C7. For every list of modules that can all be read, the loop yields,
    in the order of the list and once for each place in it: a line feed,
    the comment that names the module, a line feed, the text of the
    module, a line feed. When the stylesheet and the config file are
    usable and the output can be written, the written document holds that
    text between the line of the second heading of the script and the
    third heading. *)
Theorem modules_embedded_in_order js_files w :
  modules_readable ROOT_DIR (files w) js_files = true ->
  let entry js_file :=
    [10] ++ txt "/* --- " ++ txt js_file ++ txt " --- */" ++ [10]
    ++ content_at (files w) (path_join (JS_DIR ROOT_DIR) js_file) ++ [10] in
  let js_content := concat (map entry js_files) in
  fst (bundle ROOT_DIR js_files [] w) = Normal js_content
  /\ (reads (files w) (CSS_PATH ROOT_DIR) = true ->
      config_usable ROOT_DIR (python w) (files w) = true ->
      OUTPUT_FILE ROOT_DIR ∉ unwritable w ->
      let html :=
        html_template (content_at (files w) (CSS_PATH ROOT_DIR))
          (content_at (files w) (CONFIG_PATH ROOT_DIR)) js_content in
      files (snd (build_with ROOT_DIR js_files w)) !! OUTPUT_FILE ROOT_DIR
        = Some (File html)
      /\ exists before after,
           html =
             before ++ txt "// 2. Bundled Application Logic" ++ [10] ++ txt "        "
             ++ js_content ++ [10; 10] ++ txt "        // 3. Initialization Logic"
             ++ after).
Proof.
  intros Hm. cbv zeta.
  assert (He : concat (map (fun js_file =>
                 [10] ++ txt "/* --- " ++ txt js_file ++ txt " --- */" ++ [10]
                 ++ content_at (files w) (path_join (JS_DIR ROOT_DIR) js_file) ++ [10])
                 js_files) = bundled ROOT_DIR (files w) js_files).
  { unfold bundled, module_entry, marker, nl. f_equal. apply map_ext. intros f.
    now rewrite <- !app_assoc. }
  rewrite He. split.
  - now rewrite (bundle_reads js_files [] w Hm).
  - intros Hc Hu Hw. split; [|apply html_template_modules].
    rewrite (build_succeeds js_files w Hc Hu Hm Hw). cbn [snd files].
    apply lookup_insert_eq.
Qed.

(** C8, as the script has it. A run writes nothing when the config file
    is missing, unreadable or refused by [json.loads], and so when its
    text is empty or all white space; a run that writes embeds the text of
    the config file as it is, between [const DEFAULT_CONFIG = ] and a
    semicolon, and [json.loads] accepted that text. The literal [null] is
    such a text. *)
Theorem written_default_is_valid_json w :
  let w' := snd (main ROOT_DIR w) in
  (config_usable ROOT_DIR (python w) (files w) = false -> files w' = files w)
  /\ (forall config,
        files w !! CONFIG_PATH ROOT_DIR = Some (File config) ->
        JSON.skip_ws config = [] -> files w' = files w)
  /\ (files w' = files w
      \/ exists config v,
           files w !! CONFIG_PATH ROOT_DIR = Some (File config)
           /\ json_loads (python w) config = Some v
           /\ JSON.skip_ws config <> []
           /\ let html :=
                html_template (content_at (files w) (CSS_PATH ROOT_DIR)) config
                  (bundled ROOT_DIR (files w) js_files) in
              files w' = <[OUTPUT_FILE ROOT_DIR := File html]> (files w)
              /\ exists before after,
                   html =
                     before ++ txt "const DEFAULT_CONFIG = " ++ config ++ txt ";"
                     ++ after).
Proof.
  cbv zeta. split; [intros Hu; apply (main_config_unusable w Hu)|]. split.
  - intros config Hcfg Hblank. apply main_config_unusable.
    unfold config_usable. rewrite Hcfg. now rewrite json_loads_blank.
  - destruct (main_writes_or_not w) as [H|(Hc & Hu & Hm & Hw & ->)]; [now left|right].
    unfold config_usable in Hu. unfold document, content_at at 2.
    destruct (files w !! CONFIG_PATH ROOT_DIR) as [[config|]|] eqn:Hcfg; try discriminate.
    destruct (json_loads (python w) config) as [v|] eqn:Hv; [|discriminate].
    exists config, v. split; [reflexivity|]. split; [exact Hv|]. split.
    + intros Hblank. now rewrite (json_loads_blank _ config Hblank) in Hv.
    + split; [reflexivity|apply html_template_config].
Qed.

(** C10. An embedded default that the build accepted and wrote into the
    document, and whose value is falsy in JavaScript, is not used: with no
    config parameter the page after loading is the page as parsed, with
    the setup surface showing and nothing given to the engine; after a
    failed URL source it is that page with the warning in its console.
    A text with a falsy value passes the build under every interpreter,
    and the document is written wherever the output can be. *)
Theorem falsy_default_is_skipped w config v :
  reads (files w) (CSS_PATH ROOT_DIR) = true ->
  files w !! CONFIG_PATH ROOT_DIR = Some (File config) ->
  Artifact.embedded_default config = Some v ->
  modules_readable ROOT_DIR (files w) js_files = true ->
  Resolver.truthy v = false ->
  (OUTPUT_FILE ROOT_DIR ∉ unwritable w ->
   files (snd (main ROOT_DIR w)) !! OUTPUT_FILE ROOT_DIR =
     Some (File (html_template (content_at (files w) (CSS_PATH ROOT_DIR)) config
                   (bundled ROOT_DIR (files w) js_files))))
  /\ (forall JSON_parse fetch b,
        Resolver.loaded JSON_parse v None fetch b = Resolver.initial_page)
  /\ (forall JSON_parse url fetch b e,
        Resolver.truthy_string url = true ->
        url_failure JSON_parse (fetch url) = Some e ->
        let p := Resolver.loaded JSON_parse v (Some url) fetch b in
        Resolver.state_of p = Resolver.setup_visible /\ Resolver.constructed p = []).
Proof.
  intros Hc Hcfg Hv Hm Hf.
  assert (Hu : config_usable ROOT_DIR (python w) (files w) = true).
  { unfold config_usable. rewrite Hcfg. unfold Artifact.embedded_default in Hv.
    now rewrite (falsy_within_limits (python w) config v Hv Hf). }
  split; [|split].
  - intros Hw. unfold main, build. rewrite (build_succeeds js_files w Hc Hu Hm Hw).
    cbn [snd files]. rewrite lookup_insert_eq. unfold document, content_at at 2.
    now rewrite Hcfg.
  - intros JP fetch b. now rewrite loaded_without_url, Hf.
  - intros JP url fetch b e Hurl He. cbv zeta.
    rewrite (loaded_after_url_failure JP v url fetch b e Hurl He), loaded_without_url, Hf.
    now split.
Qed.

End BuildFacts.

(** ** The properties at concrete checkouts *)

Section BuildInstances.

Import Build Props Sample.

(** A checkout without its config file: nothing is written, and the exit
    status is 0. *)
Lemma config_failure_exits_with_status_0_witness :
  files checkout_without_config !! CONFIG_PATH root = None
  /\ main root checkout_without_config
     = (0%Z,
        World (files checkout_without_config)
          (preamble root
           ++ [config_line root; ErrorReadingConfig (FileNotFoundError (CONFIG_PATH root))])
          ∅ cpython).
Proof.
  split; [reflexivity|].
  exact (config_failure_exits_with_status_0 root checkout_without_config eq_refl eq_refl).
Defined.

(** Text that is not JSON and that [json.loads] accepts: the run writes
    the document and embeds the text. *)
Example nan_config_is_embedded :
  JSON_parse (txt "NaN") = None
  /\ json_loads cpython (txt "NaN") = Some (JSON.Number JSON.NaN)
  /\ fst (main root (checkout (txt "NaN"))) = 0%Z
  /\ files (snd (main root (checkout (txt "NaN")))) !! OUTPUT_FILE root
     = Some (File (html_template (txt "body { margin: 0 }") (txt "NaN")
                     (bundled root (files (checkout (txt "NaN"))) js_files))).
Proof. repeat split; vm_compute; reflexivity. Qed.

(** The five modules of [build], and two modules in the other order. *)
Lemma modules_embedded_in_order_witness :
  fst (bundle root js_files [] (checkout valid_text))
  = Normal (txt "
/* --- config-schema.js --- */
const S = 1;

/* --- transformers.js --- */
const T = S;

/* --- kbase-client.js --- */
const K = T;

/* --- category-manager.js --- */
const C = K;

/* --- table-renderer.js --- */
class TableRenderer {}
")
  /\ fst (bundle root ["transformers.js"; "config-schema.js"]%string [] (checkout valid_text))
     = Normal (txt "
/* --- transformers.js --- */
const T = S;

/* --- config-schema.js --- */
const S = 1;
")
  /\ exists before after,
       files (snd (build root (checkout valid_text))) !! OUTPUT_FILE root
       = Some (File (before ++ txt "// 2. Bundled Application Logic
        
/* --- config-schema.js --- */
const S = 1;

/* --- transformers.js --- */
const T = S;

/* --- kbase-client.js --- */
const K = T;

/* --- category-manager.js --- */
const C = K;

/* --- table-renderer.js --- */
class TableRenderer {}


        // 3. Initialization Logic" ++ after)).
Proof.
  split; [|split].
  - destruct (modules_embedded_in_order root js_files (checkout valid_text) eq_refl)
      as (H & _).
    rewrite H. vm_compute. reflexivity.
  - destruct (modules_embedded_in_order root ["transformers.js"; "config-schema.js"]%string
                (checkout valid_text) eq_refl) as (H & _).
    rewrite H. vm_compute. reflexivity.
  - destruct (modules_embedded_in_order root js_files (checkout valid_text) eq_refl)
      as (_ & H).
    destruct (H eq_refl eq_refl (not_elem_of_empty _)) as (Hd & before & after & Ha).
    exists before, after. unfold build. rewrite Hd, Ha. vm_compute. reflexivity.
Defined.

(** C8 as stated fails on a config file that holds [null]: the run
    succeeds and the written document embeds [null]. *)
Lemma null_config_is_embedded :
  json_loads cpython (txt "null") = Some JSON.Null
  /\ Artifact.embedded_default (txt "null") = Some JSON.Null
  /\ fst (main root (checkout (txt "null"))) = 0%Z
  /\ files (snd (main root (checkout (txt "null")))) !! OUTPUT_FILE root
     = Some (File (html_template (txt "body { margin: 0 }") (txt "null")
                     (bundled root (files (checkout (txt "null"))) js_files))).
Proof. repeat split; vm_compute; reflexivity. Qed.

(** The four falsy literals the build accepts. *)
Example falsy_literals :
  map (fun lit => option_map Resolver.truthy (Artifact.embedded_default lit))
      [txt "null"; txt "false"; txt "0"; dq ++ dq; txt "-0.0e7"; txt "1e-400"; txt "NaN"]
  = [Some false; Some false; Some false; Some false; Some false; Some false; Some false].
Proof. vm_compute. reflexivity. Qed.

Example truthy_literals :
  map (fun lit => option_map Resolver.truthy (Artifact.embedded_default lit))
      [txt "true"; txt "1"; txt "{}"; txt "[]"; dq ++ txt "0" ++ dq; txt "5e-324";
       txt "Infinity"]
  = [Some true; Some true; Some true; Some true; Some true; Some true; Some true].
Proof. vm_compute. reflexivity. Qed.

(** A config file that holds [0]. *)
Lemma falsy_default_is_skipped_witness :
  files (snd (main root (checkout (txt "0")))) !! OUTPUT_FILE root
  = Some (File (html_template (txt "body { margin: 0 }") (txt "0")
                  (bundled root (files (checkout (txt "0"))) js_files)))
  /\ forall fetch b,
       Resolver.loaded Artifact.JSON_parse_js (JSON.Number (JSON.Decimal false 0 0))
         None fetch b = Resolver.initial_page.
Proof.
  destruct (falsy_default_is_skipped root (checkout (txt "0")) (txt "0")
              (JSON.Number (JSON.Decimal false 0 0)) eq_refl eq_refl eq_refl eq_refl eq_refl)
    as (H1 & H2 & _).
  split; [exact (H1 (not_elem_of_empty _))|]. intros fetch b. apply H2.
Defined.

End BuildInstances.

(** * Further properties of the Assembler *)

Section BuildMore.

Import Build Props Cases.

Variable ROOT_DIR : string.

Lemma last_char_app x y : y <> EmptyString -> last_char (x +:+ y) = last_char y.
Proof.
  intros Hy. induction x as [|c x IH]; [reflexivity|].
  change (String.String c x +:+ y) with (String.String c (x +:+ y)).
  cbn [last_char]. destruct (x +:+ y) eqn:Hxy; [|exact IH].
  destruct x; [cbn in Hxy; contradiction|discriminate].
Qed.

Lemma path_join_last a b :
  starts_with_slash b = false -> b <> EmptyString ->
  last_char (path_join a b) = last_char b.
Proof.
  intros Hs Hb. unfold path_join. rewrite Hs.
  destruct (String.eqb a "" || ends_with_slash a).
  - now apply last_char_app.
  - rewrite last_char_app; [now apply (last_char_app "/")|].
    destruct b; [contradiction|discriminate].
Qed.

Lemma output_path_fresh : ~ In (OUTPUT_FILE ROOT_DIR) (input_paths ROOT_DIR).
Proof.
  assert (Hout : last_char (OUTPUT_FILE ROOT_DIR) = Some "l"%char)
    by (unfold OUTPUT_FILE; now rewrite path_join_last).
  unfold input_paths, js_files. cbn [map In].
  intros H. repeat destruct H as [H|H]; try contradiction;
    rewrite <- H in Hout; revert Hout;
    unfold CSS_PATH, CONFIG_PATH; now rewrite path_join_last.
Qed.

(** What a run leaves on disk, and its exit status. *)
Lemma output_writable_spec w :
  output_writable ROOT_DIR w = true <-> OUTPUT_FILE ROOT_DIR ∉ unwritable w.
Proof. unfold output_writable. apply bool_decide_eq_true. Qed.

Lemma output_unwritable_spec w :
  output_writable ROOT_DIR w = false <-> OUTPUT_FILE ROOT_DIR ∈ unwritable w.
Proof.
  unfold output_writable. rewrite bool_decide_eq_false. split.
  - intros H. destruct (decide (OUTPUT_FILE ROOT_DIR ∈ unwritable w)); [assumption|].
    contradiction.
  - intros H Hn. contradiction.
Qed.

Lemma bundle_keeps js_files : forall js_content w,
  exists fs out r,
    bundle ROOT_DIR js_files js_content w = (r, World fs out (unwritable w) (python w)).
Proof.
  induction js_files as [|f rest IH]; intros acc w.
  - exists (files w), (stdout w), (Normal acc). now destruct w.
  - cbn [bundle]. unfold bind at 1. cbn [print modify].
    unfold bind at 1, read_file. cbn [files].
    destruct (files w !! path_join (JS_DIR ROOT_DIR) f) as [[c|]|]; [|eauto..].
    apply (IH _ (World (files w) (stdout w ++ [bundling_line f]) (unwritable w) (python w))).
Qed.

(** A run changes neither what can be written nor the interpreter. *)
Lemma main_run w :
  exists fs out, snd (main ROOT_DIR w) = World fs out (unwritable w) (python w).
Proof.
  unfold main, build.
  destruct (reads (files w) (CSS_PATH ROOT_DIR)) eqn:Hc.
  - destruct (config_usable ROOT_DIR (python w) (files w)) eqn:Hu.
    + rewrite (build_checks_config ROOT_DIR js_files w Hc Hu). unfold bind at 1.
      match goal with |- context [bundle _ _ _ ?w0] =>
        destruct (bundle_keeps js_files [] w0) as (fs & out & [c|e] & ->)
      end; cbn [unwritable python]; [|eauto].
      unfold bind, write_file, print, modify. cbn [unwritable python files stdout].
      destruct (decide (OUTPUT_FILE ROOT_DIR ∈ unwritable w)); cbn; eauto.
    + rewrite (build_config_error ROOT_DIR js_files w Hc Hu). cbn. eauto.
  - destruct (build_css_unreadable ROOT_DIR js_files w Hc) as [e ->]. cbn. eauto.
Qed.

Lemma main_files w :
  files (snd (main ROOT_DIR w)) =
    if inputs_usable ROOT_DIR (python w) (files w) && output_writable ROOT_DIR w
    then <[OUTPUT_FILE ROOT_DIR := File (document ROOT_DIR (files w) js_files)]> (files w)
    else files w.
Proof.
  unfold inputs_usable, main, build.
  destruct (reads (files w) (CSS_PATH ROOT_DIR)) eqn:Hc; cbn [andb].
  - destruct (config_usable ROOT_DIR (python w) (files w)) eqn:Hu; cbn [andb].
    + destruct (modules_readable ROOT_DIR (files w) js_files) eqn:Hm; cbn [andb].
      * destruct (output_writable ROOT_DIR w) eqn:Hw.
        -- apply output_writable_spec in Hw.
           now rewrite (build_succeeds ROOT_DIR js_files w Hc Hu Hm Hw).
        -- apply output_unwritable_spec in Hw.
           now rewrite (build_output_unwritable ROOT_DIR js_files w Hc Hu Hm Hw).
      * destruct (build_module_unreadable ROOT_DIR js_files w Hc Hu Hm)
          as (e & w' & -> & Hw'). exact Hw'.
    + now destruct (build_config_unusable ROOT_DIR js_files w Hc Hu) as [e ->].
  - now destruct (build_css_unreadable ROOT_DIR js_files w Hc) as [e ->].
Qed.

Lemma forallb_agree {A} (f g : A -> bool) (l : list A) :
  (forall x, In x l -> f x = g x) -> forallb f l = forallb g l.
Proof.
  induction l as [|x l IH]; intros H; [reflexivity|]. cbn [forallb].
  rewrite (H x) by now left. rewrite IH; [reflexivity|].
  intros y Hy. apply H. now right.
Qed.

Lemma reads_after_write fs html path :
  path <> OUTPUT_FILE ROOT_DIR ->
  reads (<[OUTPUT_FILE ROOT_DIR := File html]> fs) path = reads fs path
  /\ content_at (<[OUTPUT_FILE ROOT_DIR := File html]> fs) path = content_at fs path.
Proof.
  intros Hp. unfold reads, content_at. now rewrite lookup_insert_ne by congruence.
Qed.

Lemma input_is_not_output path :
  In path (input_paths ROOT_DIR) -> path <> OUTPUT_FILE ROOT_DIR.
Proof. intros Hin ->. now apply output_path_fresh. Qed.

Lemma inputs_after_write py fs html :
  let fs' := <[OUTPUT_FILE ROOT_DIR := File html]> fs in
  reads fs' (CSS_PATH ROOT_DIR) = reads fs (CSS_PATH ROOT_DIR)
  /\ config_usable ROOT_DIR py fs' = config_usable ROOT_DIR py fs
  /\ modules_readable ROOT_DIR fs' js_files = modules_readable ROOT_DIR fs js_files
  /\ document ROOT_DIR fs' js_files = document ROOT_DIR fs js_files.
Proof.
  cbv zeta.
  assert (Hr : forall path, In path (input_paths ROOT_DIR) ->
            <[OUTPUT_FILE ROOT_DIR := File html]> fs !! path = fs !! path).
  { intros path Hin. apply lookup_insert_ne. apply not_eq_sym.
    now apply input_is_not_output. }
  assert (Hcss := Hr (CSS_PATH ROOT_DIR) ltac:(now left)).
  assert (Hcfg := Hr (CONFIG_PATH ROOT_DIR) ltac:(right; now left)).
  assert (Hmod : forall f, In f js_files ->
            <[OUTPUT_FILE ROOT_DIR := File html]> fs !! path_join (JS_DIR ROOT_DIR) f
            = fs !! path_join (JS_DIR ROOT_DIR) f).
  { intros f Hf. apply Hr. right. right. now apply in_map. }
  split; [|split; [|split]].
  - unfold reads. now rewrite Hcss.
  - unfold config_usable. now rewrite Hcfg.
  - unfold modules_readable, reads. apply forallb_agree. intros f Hf. now rewrite Hmod.
  - unfold document, bundled, module_entry, content_at. rewrite Hcss, Hcfg.
    f_equal. f_equal. apply map_ext_in. intros f Hf. now rewrite Hmod.
Qed.

Lemma main_status w :
  fst (main ROOT_DIR w) =
    if reads (files w) (CSS_PATH ROOT_DIR)
       && (negb (config_usable ROOT_DIR (python w) (files w))
           || (modules_readable ROOT_DIR (files w) js_files
               && output_writable ROOT_DIR w))
    then 0%Z else 1%Z.
Proof.
  unfold main, build.
  destruct (reads (files w) (CSS_PATH ROOT_DIR)) eqn:Hc; cbn [andb].
  - destruct (config_usable ROOT_DIR (python w) (files w)) eqn:Hu; cbn [negb orb].
    + destruct (modules_readable ROOT_DIR (files w) js_files) eqn:Hm; cbn [andb].
      * destruct (output_writable ROOT_DIR w) eqn:Hw.
        -- apply output_writable_spec in Hw.
           now rewrite (build_succeeds ROOT_DIR js_files w Hc Hu Hm Hw).
        -- apply output_unwritable_spec in Hw.
           now rewrite (build_output_unwritable ROOT_DIR js_files w Hc Hu Hm Hw).
      * now destruct (build_module_unreadable ROOT_DIR js_files w Hc Hu Hm)
          as (e & w' & -> & Hw').
    + now destruct (build_config_unusable ROOT_DIR js_files w Hc Hu) as [e ->].
  - now destruct (build_css_unreadable ROOT_DIR js_files w Hc) as [e ->].
Qed.

Lemma read_file_error path w :
  reads (files w) path = false ->
  read_file path w = (Throw (read_error (files w) path), w).
Proof.
  unfold reads, read_file, read_error.
  now destruct (files w !! path) as [[c|]|].
Qed.

Lemma bundle_stops js_files f : forall js_content w,
  first_unreadable ROOT_DIR (files w) js_files = Some f ->
  bundle ROOT_DIR js_files js_content w =
    (Throw (read_error (files w) (path_join (JS_DIR ROOT_DIR) f)),
     World (files w)
       (stdout w ++ map bundling_line (attempted ROOT_DIR (files w) js_files)) (unwritable w) (python w)).
Proof.
  induction js_files as [|g rest IH]; intros acc w Hf; [discriminate|].
  cbn [first_unreadable attempted] in *. cbn [bundle]. unfold bind at 1. cbn [print modify].
  unfold bind at 1. fold (bundling_line g).
  destruct (reads (files w) (path_join (JS_DIR ROOT_DIR) g)) eqn:Hg.
  - rewrite (read_file_reads _ (World (files w) (stdout w ++ [bundling_line g]) (unwritable w) (python w)) Hg).
    cbn [files unwritable python]. rewrite (IH _ (World (files w) (stdout w ++ [bundling_line g]) (unwritable w) (python w)) Hf).
    cbn [files stdout unwritable python map]. now rewrite <- app_assoc.
  - injection Hf as <-.
    now rewrite (read_file_error _ (World (files w) (stdout w ++ [bundling_line g]) (unwritable w) (python w)) Hg).
Qed.

Lemma first_unreadable_some js_files fs :
  modules_readable ROOT_DIR fs js_files = false <->
  exists f, first_unreadable ROOT_DIR fs js_files = Some f.
Proof.
  induction js_files as [|g rest IH]; cbn [modules_readable forallb first_unreadable].
  - split; [discriminate|now intros [f Hf]].
  - destruct (reads fs (path_join (JS_DIR ROOT_DIR) g)); cbn [andb]; [exact IH|].
    split; eauto.
Qed.

(** X1. A run of the build changes no path but [OUTPUT_FILE]: whatever it
    could or could not read, every other path names afterwards what it
    named before. *)
Theorem build_touches_only_output w path :
  path <> OUTPUT_FILE ROOT_DIR ->
  files (snd (main ROOT_DIR w)) !! path = files w !! path.
Proof.
  intros Hp. rewrite main_files.
  destruct (inputs_usable ROOT_DIR (python w) (files w) && output_writable ROOT_DIR w);
    [|reflexivity].
  apply lookup_insert_ne. congruence.
Qed.


(** X3. For every root directory, the output path is none of the paths
    the build reads, so a run leaves the stylesheet, the config file and
    the five modules as they were. *)
Theorem build_keeps_its_inputs w :
  ~ In (OUTPUT_FILE ROOT_DIR) (input_paths ROOT_DIR)
  /\ forall path,
       In path (input_paths ROOT_DIR) ->
       files (snd (main ROOT_DIR w)) !! path = files w !! path.
Proof.
  split; [apply output_path_fresh|].
  intros path Hin. rewrite main_files.
  destruct (inputs_usable ROOT_DIR (python w) (files w) && output_writable ROOT_DIR w);
    [|reflexivity].
  apply lookup_insert_ne. apply not_eq_sym. now apply input_is_not_output.
Qed.

(** X4. Building twice gives what building once gives: the second run
    ends with the same exit status and leaves the files of the first,
    the written document included. *)
Theorem build_twice w :
  let w1 := snd (main ROOT_DIR w) in
  files (snd (main ROOT_DIR w1)) = files w1
  /\ fst (main ROOT_DIR w1) = fst (main ROOT_DIR w).
Proof.
  cbv zeta. destruct (main_run w) as (fs & out & Hrun).
  assert (Hw : output_writable ROOT_DIR (snd (main ROOT_DIR w))
               = output_writable ROOT_DIR w)
    by (unfold output_writable; now rewrite Hrun).
  assert (Hp : python (snd (main ROOT_DIR w)) = python w) by now rewrite Hrun.
  rewrite !main_status, (main_files (snd (main ROOT_DIR w))), Hw, Hp, (main_files w).
  unfold inputs_usable.
  destruct (reads (files w) (CSS_PATH ROOT_DIR)
            && config_usable ROOT_DIR (python w) (files w)
            && modules_readable ROOT_DIR (files w) js_files
            && output_writable ROOT_DIR w) eqn:Hok.
  - destruct (inputs_after_write (python w) (files w)
                (document ROOT_DIR (files w) js_files)) as (H1 & H2 & H3 & H4).
    rewrite H1, H2, H3, H4, Hok. split; [apply insert_insert_eq|reflexivity].
  - now rewrite Hok.
Qed.

(** X5. When the stylesheet cannot be read, the run ends at once with
    status 1: only the first two lines are printed, the config file and
    the modules are never looked at, and nothing is written. *)
Theorem stylesheet_failure_stops_first w :
  reads (files w) (CSS_PATH ROOT_DIR) = false ->
  build ROOT_DIR w =
    (Throw (read_error (files w) (CSS_PATH ROOT_DIR)),
     World (files w) (stdout w ++ preamble ROOT_DIR) (unwritable w) (python w))
  /\ fst (main ROOT_DIR w) = 1%Z.
Proof.
  intros Hc. split; [|rewrite main_status; now rewrite Hc].
  unfold build, build_with. unfold bind at 1. cbn [print modify].
  unfold bind at 1. cbn [print modify files stdout unwritable python]. unfold bind at 1.
  match goal with |- context [read_file ?path ?w0] =>
    rewrite (read_file_error path w0 Hc)
  end.
  cbn [files unwritable python]. unfold preamble. now rewrite <- app_assoc.
Qed.

(** X6. When the stylesheet and the config file are usable and a module
    cannot be read, the loop stops at the first such module: the modules
    before it and that one are announced, the later ones are not, the
    exception of that read ends the run with status 1, and nothing is
    written. *)
Theorem module_failure_stops_at_first js_files f w :
  reads (files w) (CSS_PATH ROOT_DIR) = true ->
  config_usable ROOT_DIR (python w) (files w) = true ->
  first_unreadable ROOT_DIR (files w) js_files = Some f ->
  build_with ROOT_DIR js_files w =
    (Throw (read_error (files w) (path_join (JS_DIR ROOT_DIR) f)),
     World (files w)
       (stdout w ++ preamble ROOT_DIR ++ [config_line ROOT_DIR]
        ++ map bundling_line (attempted ROOT_DIR (files w) js_files)) (unwritable w) (python w)).
Proof.
  intros Hc Hu Hf. rewrite (build_checks_config ROOT_DIR js_files w Hc Hu). unfold bind at 1.
  match goal with |- context [bundle _ _ _ ?w0] =>
    rewrite (bundle_stops js_files f [] w0 Hf)
  end.
  cbn [files stdout unwritable python]. now rewrite <- !app_assoc.
Qed.

(** X7. Bundling a list of modules is bundling its first part and going
    on with the rest from the text gathered so far, failures included. *)
Theorem bundle_app first rest js_content w :
  bundle ROOT_DIR (first ++ rest) js_content w =
    (gathered <- bundle ROOT_DIR first js_content ;; bundle ROOT_DIR rest gathered)%eff w.
Proof.
  revert js_content w. induction first as [|f first IH]; intros acc w; [reflexivity|].
  cbn [app bundle]. unfold bind. cbn [print modify].
  destruct (read_file (path_join (JS_DIR ROOT_DIR) f) _) as [[c|e] w']; [|reflexivity].
  rewrite IH. reflexivity.
Qed.

End BuildMore.

(** * Further properties of the Bootstrap Resolver *)

Section ResolverMore.

Import Resolver Props Cases.

Variable JSON_parse : text -> error + JSON.value.

(** What one event can do to a page. *)
Lemma handle_shape p ev :
  exists p0,
    (p0 = p \/ p0 = undragged p)
    /\ (handle JSON_parse p ev = p0
        \/ handle JSON_parse p ev = dragged p
        \/ (exists msg, handle JSON_parse p ev = shows msg p0)
        \/ (exists b c, handle JSON_parse p ev = snd (initApp b c p0))
        \/ (exists n, timers p = S n /\ handle JSON_parse p ev = hidden n p)).
Proof.
  destruct ev as [| |files b|files b|v b|].
  - exists p. split; [now left|]. right. now left.
  - exists (undragged p). split; [now right|]. now left.
  - exists (undragged p). split; [now right|].
    destruct files as [|[t|] others]; [now left| |now left].
    unfold handle, dispatch. cbn [listener]. rewrite on_drop_first.
    destruct (JSON_parse t) as [e|c] eqn:Ht.
    + rewrite (handleFile_invalid _ _ _ e _ Ht). right. right. left. eauto.
    + rewrite (handleFile_valid _ _ _ c _ Ht). right. right. right. left. eauto.
  - exists p. split; [now left|].
    destruct files as [|[t|] others]; [now left| |now left].
    unfold handle, dispatch. cbn [listener]. unfold on_change.
    destruct (JSON_parse t) as [e|c] eqn:Ht.
    + rewrite (handleFile_invalid _ _ _ e _ Ht). right. right. left. eauto.
    + rewrite (handleFile_valid _ _ _ c _ Ht). right. right. right. left. eauto.
  - exists p. split; [now left|].
    unfold handle, dispatch. cbn [listener].
    destruct (truthy_string (trim v)) eqn:Hv.
    + destruct (JSON_parse (trim v)) as [e|c] eqn:Ht.
      * rewrite (loadPastedConfig_invalid _ _ _ e _ Hv Ht). right. right. left. eauto.
      * rewrite (loadPastedConfig_valid _ _ _ c _ Hv Ht). right. right. right. left. eauto.
    + unfold loadPastedConfig, try_catch. rewrite Hv. now left.
  - exists p. split; [now left|].
    unfold handle, dispatch. cbn [listener]. unfold on_timeout.
    destruct (timers p) as [|n] eqn:Hn; [now left|].
    right. right. right. right. exists n. split; reflexivity.
Qed.

(** What the URL source ends in when it does not fail. *)
Lemma url_success r :
  url_failure JSON_parse r = None ->
  exists body config, r = fetch_resolves true (inr body) /\ JSON_parse body = inr config.
Proof.
  unfold url_failure. destruct r as [e|[] [e|body]]; try discriminate.
  destruct (JSON_parse body) as [e|config] eqn:Hb; [discriminate|]. eauto.
Qed.

Lemma loaded_falsy_url D u fetch b :
  truthy_string u = false ->
  loaded JSON_parse D (Some u) fetch b = loaded JSON_parse D None fetch b.
Proof. intros Hu. unfold loaded, autoload. now rewrite Hu. Qed.

(** What the auto-load sequence can leave. *)
Lemma loaded_shape D url fetch b :
  exists core,
    (core = initial_page
     \/ exists c p0,
          (p0 = initial_page \/ exists entry, p0 = console_after entry initial_page)
          /\ core = snd (initApp b c p0))
    /\ (loaded JSON_parse D url fetch b = core
        \/ exists entry, loaded JSON_parse D url fetch b = console_after entry core).
Proof.
  assert (Hnone : exists core,
            (core = initial_page
             \/ exists c p0,
                  (p0 = initial_page \/ exists entry, p0 = console_after entry initial_page)
                  /\ core = snd (initApp b c p0))
            /\ loaded JSON_parse D None fetch b = core).
  { rewrite loaded_without_url. destruct (truthy D).
    - eexists. split; [|reflexivity]. right. eexists _, _. split; [|reflexivity].
      right. eauto.
    - exists initial_page. split; [now left|reflexivity]. }
  destruct url as [u|]; [|destruct Hnone as (core & H1 & H2); eauto].
  destruct (truthy_string u) eqn:Hu.
  - destruct (url_failure JSON_parse (fetch u)) as [e|] eqn:Hf.
    + destruct Hnone as (core & H1 & H2). exists core. split; [exact H1|]. right.
      rewrite (loaded_after_url_failure _ D u fetch b e Hu Hf), H2. eauto.
    + destruct (url_success _ Hf) as (body & config & Hr & Hb).
      rewrite (loaded_from_url _ D u fetch b body config Hu Hr Hb).
      eexists. split; [|left; reflexivity]. right. eexists _, _. split; [|reflexivity].
      now left.
  - rewrite (loaded_falsy_url D u fetch b Hu).
    destruct Hnone as (core & H1 & H2); eauto.
Qed.

Lemma coherent_initApp b c p : coherent p -> coherent (snd (initApp b c p)).
Proof.
  intros (H1 & H2 & H3 & H4 & H5).
  destruct (engine_failure b) as [e|] eqn:Hb.
  - rewrite (initApp_fails b c p e Hb). unfold coherent.
    cbn [snd setupScreen_display setupScreen_opacity timers app_rendered constructed
         window_renderer].
    split; [exact H1|]. split; [exact H2|]. split; [|split; [|exact H5]].
    + intros c' Hc. apply in_or_app. left. now apply H3.
    + intros c' Hc. apply in_or_app.
      destruct b; [left; now apply H4|injection Hc as <-; right; now left|discriminate].
  - destruct b; try discriminate. rewrite initApp_renders. unfold coherent.
    cbn [snd setupScreen_display setupScreen_opacity timers app_rendered constructed
         window_renderer].
    split; [reflexivity|]. split; [eauto|]. split; [|split; [|exact H5]].
    + intros c' [= <-]. apply in_or_app. right. now left.
    + intros c' [= <-]. apply in_or_app. right. now left.
Qed.

Lemma coherent_handle p ev : coherent p -> coherent (handle JSON_parse p ev).
Proof.
  intros Hp. destruct (handle_shape p ev) as (p0 & Hp0 & H).
  assert (Hc0 : coherent p0) by (destruct Hp0 as [->| ->]; exact Hp).
  destruct H as [->|[->|[(msg & ->)|[(b & c & ->)|(n & Hn & ->)]]]].
  - exact Hc0.
  - exact Hp.
  - exact Hc0.
  - now apply coherent_initApp.
  - destruct Hp as (H1 & H2 & H3 & H4 & H5).
    assert (Ho : setupScreen_opacity p = opacity_0) by (apply H1; right; lia).
    unfold coherent.
    cbn [hidden setupScreen_display setupScreen_opacity timers app_rendered constructed
         window_renderer].
    split; [intros _; exact Ho|]. split; [exact H2|]. split; [exact H3|].
    split; [exact H4|discriminate].
Qed.

Lemma coherent_run evs : forall p, coherent p -> coherent (run JSON_parse evs p).
Proof.
  induction evs as [|ev evs IH]; intros p Hp; [exact Hp|].
  cbn [run fold_left]. apply IH. now apply coherent_handle.
Qed.

Lemma coherent_initial : coherent initial_page.
Proof. repeat split; cbn; try discriminate; intros [H|H]; [discriminate|lia]. Qed.

Lemma coherent_loaded D url fetch b : coherent (loaded JSON_parse D url fetch b).
Proof.
  destruct (loaded_shape D url fetch b) as (core & Hcore & Hl).
  assert (Hc : coherent core).
  { destruct Hcore as [->|(c & p0 & Hp0 & ->)]; [apply coherent_initial|].
    apply coherent_initApp. destruct Hp0 as [->|(entry & ->)]; apply coherent_initial. }
  destruct Hl as [->|(entry & ->)]; exact Hc.
Qed.

Lemma loaded_uncaught D url fetch b : uncaught (loaded JSON_parse D url fetch b) = [].
Proof.
  destruct (loaded_shape D url fetch b) as (core & Hcore & Hl).
  assert (Hc : uncaught core = []).
  { destruct Hcore as [->|(c & p0 & Hp0 & ->)]; [reflexivity|].
    rewrite uncaught_initApp. now destruct Hp0 as [->|(entry & ->)]. }
  destruct Hl as [->|(entry & ->)]; exact Hc.
Qed.

Lemma handle_run_one p ev evs :
  run JSON_parse (ev :: evs) p = run JSON_parse evs (handle JSON_parse p ev).
Proof. reflexivity. Qed.

(** [trim_start] takes white space off the front and nothing else. *)
Lemma trim_start_split v :
  exists pre, v = pre ++ trim_start v /\ forallb is_js_space pre = true.
Proof.
  induction v as [|c v (pre & Hv & Hpre)]; [exists []; now split|].
  cbn [trim_start]. destruct (is_js_space c) eqn:Hc.
  - exists (c :: pre). cbn [app forallb]. rewrite Hc, Hpre. split; [now f_equal|reflexivity].
  - exists []. now split.
Qed.

Lemma trim_start_fixed v :
  v = [] \/ (exists c r, v = c :: r /\ is_js_space c = false) -> trim_start v = v.
Proof.
  intros [->|(c & r & -> & Hc)]; [reflexivity|]. cbn [trim_start]. now rewrite Hc.
Qed.

Lemma trim_trim v : trim (trim v) = trim v.
Proof.
  unfold trim. set (u := trim_start v). set (w := trim_start (rev u)).
  assert (Hw : trim_start w = w) by (apply trim_start_fixed, trim_start_head).
  assert (Hrw : trim_start (rev w) = rev w).
  { apply trim_start_fixed.
    destruct (trim_start_split (rev u)) as (pre & Hsplit & _). fold w in Hsplit.
    apply (f_equal (@rev N)) in Hsplit. rewrite rev_involutive, rev_app_distr in Hsplit.
    destruct (rev w) as [|c r] eqn:Hr; [now left|right].
    exists c, r. split; [reflexivity|].
    destruct (trim_start_head v) as [Hv|(c' & r' & Hv & Hc')]; fold u in Hv;
      rewrite Hv in Hsplit; [discriminate|].
    cbn [app] in Hsplit. now injection Hsplit as -> _. }
  now rewrite Hrw, rev_involutive, Hw.
Qed.

Lemma state_of_initApp b c p :
  state_of (snd (initApp b c p)) =
    match engine_failure b with
    | Some _ => state_of p
    | None => rendering
    end.
Proof. now destruct b. Qed.

Lemma errorMsg_display_initApp b c p :
  errorMsg_display (snd (initApp b c p)) =
    match engine_failure b with
    | Some _ => display_block
    | None => errorMsg_display p
    end.
Proof. now destruct b. Qed.

(** X8. With no config parameter and an embedded default that passes
    the script's test, the auto-load sequence logs the use of the default
    and gives it to the engine, once: the page is rendering with it when
    the engine renders it, and shows the engine's message on the setup
    surface when the engine fails. *)
Theorem default_used_without_url D fetch b :
  truthy D = true ->
  let p := loaded JSON_parse D None fetch b in
  constructed p = [D]
  /\ In (console_log (txt "Using embedded default config")) (console p)
  /\ uncaught p = []
  /\ (b = render_resolves ->
      state_of p = rendering /\ window_renderer p = Some D /\ app_rendered p = Some D
      /\ errorMsg_display p = display_none)
  /\ (forall e, engine_failure b = Some e ->
      state_of p = setup_visible /\ app_rendered p = None
      /\ errorMsg_display p = display_block
      /\ errorMsg_textContent p = txt "Failed to initialize viewer: " ++ message e).
Proof.
  intros HD. cbv zeta. rewrite loaded_without_url, HD.
  split; [now destruct b|]. split; [destruct b; cbn; auto|]. split; [now destruct b|].
  split; [now intros ->|].
  intros e He. now rewrite (initApp_fails b D _ e He).
Qed.

(** X9. A config parameter with an empty value is no parameter: nothing
    is fetched and the page after loading is the page of a session
    without it, whatever the network would have answered. *)
Theorem empty_parameter_is_no_parameter D fetch fetch' b :
  loaded JSON_parse D (Some []) fetch b = loaded JSON_parse D None fetch' b.
Proof.
  rewrite (loaded_falsy_url D [] fetch b eq_refl), !loaded_without_url. reflexivity.
Qed.

(** X10. No event brings the setup surface back: once the page is
    rendering it stays so through every run of events, failed
    submissions and failed renders included. *)
Theorem rendering_is_permanent evs : forall p,
  state_of p = rendering -> state_of (run JSON_parse evs p) = rendering.
Proof.
  induction evs as [|ev evs IH]; intros p Hp; [exact Hp|].
  rewrite handle_run_one. apply IH.
  destruct (handle_shape p ev) as (p0 & Hp0 & H).
  assert (H0 : state_of p0 = rendering) by (destruct Hp0 as [->| ->]; exact Hp).
  destruct H as [->|[->|[(msg & ->)|[(b & c & ->)|(n & Hn & ->)]]]];
    try assumption.
  - rewrite state_of_initApp. now destruct (engine_failure b).
  - unfold state_of. cbn [hidden setupScreen_opacity setupScreen_display].
    now destruct (setupScreen_opacity p).
Qed.

(** X11. No event hides the inline error again: once the error
    paragraph shows, it shows through every run of events, a later
    successful render included. *)
Theorem error_is_never_cleared evs : forall p,
  errorMsg_display p = display_block ->
  errorMsg_display (run JSON_parse evs p) = display_block.
Proof.
  induction evs as [|ev evs IH]; intros p Hp; [exact Hp|].
  rewrite handle_run_one. apply IH.
  destruct (handle_shape p ev) as (p0 & Hp0 & H).
  assert (H0 : errorMsg_display p0 = display_block) by (destruct Hp0 as [->| ->]; exact Hp).
  destruct H as [->|[->|[(msg & ->)|[(b & c & ->)|(n & Hn & ->)]]]];
    try assumption; try reflexivity.
  rewrite errorMsg_display_initApp. now destruct (engine_failure b).
Qed.

(** X12. Of the files of a drop or of a pick only the first is read:
    leaving the others out of every event of a run changes nothing. *)
Theorem extra_files_are_ignored evs : forall p,
  run JSON_parse (map first_file_only evs) p = run JSON_parse evs p.
Proof.
  induction evs as [|ev evs IH]; intros p; [reflexivity|].
  cbn [map]. rewrite !handle_run_one, IH. f_equal.
  destruct ev as [| |[|f others] b|[|f others] b|v b|]; reflexivity.
Qed.

(** X13. A drop or a pick that brings no file, or whose first file
    cannot be read, is silent: no error is shown and nothing reaches the
    engine; a drop only takes the highlight off the drop zone. *)
Theorem nothing_to_read_is_silent files b p :
  nothing_to_read files = true ->
  handle JSON_parse p (drop files b) = undragged p
  /\ handle JSON_parse p (change files b) = p.
Proof.
  destruct files as [|[t|] others]; [|discriminate|]; intros _; split; reflexivity.
Qed.

(** X14. The paste handler works on the trimmed text: trimming is
    idempotent, and committing a text or its trimmed form does the
    same. *)
Theorem paste_is_trimmed b v p :
  trim (trim v) = trim v
  /\ loadPastedConfig JSON_parse b (trim v) p = loadPastedConfig JSON_parse b v p.
Proof.
  split; [apply trim_trim|]. unfold loadPastedConfig. now rewrite trim_trim.
Qed.

(** X15. In every session, whatever the URL, the network, the engine
    and the events, no exception leaves the auto-load sequence or a
    listener uncaught. *)
Theorem no_exception_escapes D url fetch b evs :
  uncaught (run JSON_parse evs (loaded JSON_parse D url fetch b)) = [].
Proof. now rewrite run_uncaught, loaded_uncaught. Qed.

(** X16. The engine is constructed at most once on load, and at most
    once more for each event; what was constructed before stays in the
    record. *)
Theorem one_construction_per_event D url fetch b :
  (length (constructed (loaded JSON_parse D url fetch b)) <= 1)%nat
  /\ forall p ev,
       exists cs,
         constructed (handle JSON_parse p ev) = constructed p ++ cs
         /\ (length cs <= 1)%nat.
Proof.
  split.
  - destruct (loaded_shape D url fetch b) as (core & Hcore & Hl).
    assert (Hc : (length (constructed core) <= 1)%nat).
    { destruct Hcore as [->|(c & p0 & Hp0 & ->)]; [cbn; lia|].
      rewrite constructed_initApp. destruct Hp0 as [->|(entry & ->)]; cbn; lia. }
    destruct Hl as [->|(entry & ->)]; exact Hc.
  - intros p ev. destruct (handle_shape p ev) as (p0 & Hp0 & H).
    assert (H0 : constructed p0 = constructed p) by (now destruct Hp0 as [->| ->]).
    destruct H as [->|[->|[(msg & ->)|[(b' & c & ->)|(n & Hn & ->)]]]].
    + exists []. rewrite app_nil_r. split; [exact H0|cbn; lia].
    + exists []. rewrite app_nil_r. split; [reflexivity|cbn; lia].
    + exists []. rewrite app_nil_r. split; [exact H0|cbn; lia].
    + exists [c]. rewrite constructed_initApp, H0. split; [reflexivity|cbn; lia].
    + exists []. rewrite app_nil_r. split; [reflexivity|cbn; lia].
Qed.

(** X17. In every session the setup surface is out of the way only after
    a render has completed: when the page is rendering, some
    configuration given to the engine has rendered; [window.renderer]
    was constructed with a configuration given to the engine; and the
    setup screen has [display: none] only once it was faded. *)
Theorem hidden_only_after_render D url fetch b evs :
  let p := run JSON_parse evs (loaded JSON_parse D url fetch b) in
  (state_of p = rendering -> exists c, app_rendered p = Some c /\ In c (constructed p))
  /\ (forall c, window_renderer p = Some c -> In c (constructed p))
  /\ (setupScreen_display p = display_none -> setupScreen_opacity p = opacity_0).
Proof.
  cbv zeta.
  destruct (coherent_run evs _ (coherent_loaded D url fetch b)) as (H1 & H2 & H3 & H4 & H5).
  split; [|split; [exact H4|auto]].
  intros Hr.
  assert (Ho : setupScreen_opacity (run JSON_parse evs (loaded JSON_parse D url fetch b))
               = opacity_0).
  { unfold state_of in Hr.
    destruct (setupScreen_opacity _) eqn:Ho; [|reflexivity].
    destruct (setupScreen_display _) eqn:Hd; try discriminate.
    apply H1. now left. }
  destruct (H2 Ho) as [c Hc]. exists c. split; [exact Hc|now apply H3].
Qed.

(** X18. A render that completes fades the setup screen and starts one
    timer; when that timer runs the screen gets [display: none] and the
    timer is spent; a tick with no timer pending changes nothing. *)
Theorem fade_then_hide c p :
  let p1 := snd (initApp render_resolves c p) in
  let p2 := handle JSON_parse p1 timeout in
  setupScreen_opacity p1 = opacity_0
  /\ setupScreen_display p1 = setupScreen_display p
  /\ timers p1 = S (timers p)
  /\ setupScreen_display p2 = display_none
  /\ timers p2 = timers p
  /\ (timers p = 0%nat -> handle JSON_parse p timeout = p).
Proof.
  cbv zeta. do 5 (split; [reflexivity|]).
  intros Hp. unfold handle, dispatch. cbn [listener]. unfold on_timeout. now rewrite Hp.
Qed.

End ResolverMore.

(** * Properties of [get_base64_image] *)

Section ImageFacts.

Import Images.

Local Ltac div_lia := zify; Z.to_euclidean_division_equations; lia.

Lemma list_by_threes {A} (P : list A -> Prop) :
  P [] -> (forall a, P [a]) -> (forall a b, P [a; b]) ->
  (forall a b c rest, P rest -> P (a :: b :: c :: rest)) ->
  forall l, P l.
Proof.
  intros H0 H1 H2 H3 l.
  assert (H : P l /\ (forall a, P (a :: l)) /\ (forall a b, P (a :: b :: l))).
  { induction l as [|x l (IH0 & IH1 & IH2)]; [now repeat split|].
    split; [apply IH1|]. split; [intros a; apply IH2|]. intros a b. now apply H3. }
  apply H.
Qed.

Lemma sextet_alphabet i : i < 64 -> sextet (alphabet i) = Some i.
Proof.
  intros Hi. unfold alphabet.
  destruct (N.ltb_spec i 26); [|destruct (N.ltb_spec i 52); [|destruct (N.ltb_spec i 62);
    [|destruct (N.eqb_spec i 62)]]]; unfold sextet;
    repeat match goal with
           | |- context [?a <=? ?b] => destruct (N.leb_spec a b); try lia
           | |- context [?a =? ?b] => destruct (N.eqb_spec a b); try lia
           end; cbn [andb]; f_equal; lia.
Qed.

Lemma alphabet_is_no_pad i : i < 64 -> (alphabet i =? pad) = false.
Proof.
  intros Hi. apply N.eqb_neq. intros H. pose proof (sextet_alphabet i Hi) as Hs.
  rewrite H in Hs. discriminate Hs.
Qed.

Lemma alphabet_ascii i : i < 64 -> alphabet i < 128.
Proof.
  intros Hi. unfold alphabet.
  repeat match goal with
         | |- context [?a <? ?b] => destruct (N.ltb_spec a b)
         | |- context [?a =? ?b] => destruct (N.eqb_spec a b)
         end; lia.
Qed.

Lemma bytes_of_to_N bs : bytes_of (map Byte.to_N bs) = Some bs.
Proof.
  induction bs as [|b bs IH]; [reflexivity|].
  cbn [map bytes_of fold_right] in *. unfold bytes_of in IH. now rewrite Byte.of_to_N, IH.
Qed.

(** The four sextets of three bytes, and the bytes back from them. *)
Lemma sextets_in_range a b c :
  a <= 255 -> b <= 255 -> c <= 255 ->
  a / 4 < 64 /\ (a mod 4) * 16 + b / 16 < 64 /\ (b mod 16) * 4 + c / 64 < 64
  /\ c mod 64 < 64 /\ (a mod 4) * 16 < 64 /\ (b mod 16) * 4 < 64.
Proof. intros. repeat split; div_lia. Qed.

Lemma bytes_from_sextets a b c :
  a <= 255 -> b <= 255 -> c <= 255 ->
  a / 4 * 4 + ((a mod 4) * 16 + b / 16) / 16 = a
  /\ (((a mod 4) * 16 + b / 16) mod 16) * 16 + ((b mod 16) * 4 + c / 64) / 4 = b
  /\ (((b mod 16) * 4 + c / 64) mod 4) * 64 + c mod 64 = c.
Proof. intros. repeat split; div_lia. Qed.

Lemma b64decode_encode bs : forall fuel,
  (length bs < fuel)%nat -> b64decode fuel (b64encode bs) = Some bs.
Proof.
  induction bs as [|a|a b|a b c rest IH] using list_by_threes; intros [|fuel] Hf;
    cbn [length] in Hf; try lia.
  - reflexivity.
  - pose proof (Byte.to_N_bounded a) as Ha.
    destruct (sextets_in_range (Byte.to_N a) 0 0 Ha ltac:(lia) ltac:(lia))
      as (H1 & _ & _ & _ & H2 & _).
    destruct (bytes_from_sextets (Byte.to_N a) 0 0 Ha ltac:(lia) ltac:(lia)) as (E1 & _).
    cbn [b64encode b64decode]. rewrite !sextet_alphabet by assumption.
    rewrite N.eqb_refl. cbn [andb].
    replace (Byte.to_N a / 4 * 4 + Byte.to_N a mod 4 * 16 / 16) with (Byte.to_N a)
      by div_lia.
    apply (bytes_of_to_N [a]).
  - pose proof (Byte.to_N_bounded a) as Ha. pose proof (Byte.to_N_bounded b) as Hb.
    destruct (sextets_in_range (Byte.to_N a) (Byte.to_N b) 0 Ha Hb ltac:(lia))
      as (H1 & H2 & _ & _ & _ & H3).
    cbn [b64encode b64decode]. rewrite !sextet_alphabet by assumption.
    rewrite (alphabet_is_no_pad _ H3), N.eqb_refl. cbn [andb].
    replace (Byte.to_N a / 4 * 4 + (Byte.to_N a mod 4 * 16 + Byte.to_N b / 16) / 16)
      with (Byte.to_N a) by div_lia.
    replace ((Byte.to_N a mod 4 * 16 + Byte.to_N b / 16) mod 16 * 16
             + Byte.to_N b mod 16 * 4 / 4)
      with (Byte.to_N b) by div_lia.
    apply (bytes_of_to_N [a; b]).
  - pose proof (Byte.to_N_bounded a) as Ha. pose proof (Byte.to_N_bounded b) as Hb.
    pose proof (Byte.to_N_bounded c) as Hc.
    destruct (sextets_in_range _ _ _ Ha Hb Hc) as (H1 & H2 & H3 & H4 & _ & _).
    destruct (bytes_from_sextets _ _ _ Ha Hb Hc) as (E1 & E2 & E3).
    specialize (IH fuel ltac:(lia)).
    cbn [b64encode app]. cbn [b64decode].
    rewrite !sextet_alphabet by assumption.
    rewrite (alphabet_is_no_pad _ H3), (alphabet_is_no_pad _ H4). cbn [andb].
    rewrite E1, E2, E3.
    change (bytes_of [Byte.to_N a; Byte.to_N b; Byte.to_N c])
      with (bytes_of (map Byte.to_N [a; b; c])).
    rewrite bytes_of_to_N.
    destruct (b64encode rest) as [|c1 more] eqn:Hrest.
    + destruct rest as [|? [|? [|? ?]]]; try discriminate Hrest. reflexivity.
    + now rewrite IH.
Qed.

Lemma encode_length content :
  length (b64encode content) = (4 * ((length content + 2) / 3))%nat.
Proof.
  induction content as [|a|a b|a b c rest IH] using list_by_threes; try reflexivity.
  cbn [b64encode length app]. rewrite IH.
  replace (S (S (S (length rest))) + 2)%nat with (length rest + 2 + 1 * 3)%nat by lia.
  rewrite Nat.div_add by lia. lia.
Qed.

(** X20. [get_base64_image] returns the encoding of the bytes of a file
    it can read and raises on a path it cannot; it changes nothing; and
    the encoding of [n] bytes has four characters for every three bytes,
    the last group filled up: [4 * ((n + 2) / 3)] characters. *)
Theorem base64_length image_path disk :
  get_base64_image image_path disk =
    match disk !! image_path with
    | Some (Bytes content) => (Normal (b64encode content), disk)
    | Some NoAccess => (Throw (Build.ReadError image_path), disk)
    | None => (Throw (Build.FileNotFoundError image_path), disk)
    end
  /\ forall content,
       length (b64encode content) = (4 * ((length content + 2) / 3))%nat.
Proof.
  split.
  - unfold get_base64_image, bind, read_bytes.
    now destruct (disk !! image_path) as [[content|]|].
  - apply encode_length.
Qed.

(** X21. Every character of an encoding is a letter, a digit, [+], [/]
    or the padding [=]: the encoding is ASCII, so reading it as UTF-8
    cannot fail. *)
Theorem base64_is_ascii content :
  Forall (fun ch => ch < 128 /\ (ch = pad \/ sextet ch <> None)) (b64encode content).
Proof.
  assert (Ha : forall i, i < 64 -> alphabet i < 128 /\ (alphabet i = pad \/ sextet (alphabet i) <> None)).
  { intros i Hi. split; [now apply alphabet_ascii|]. right.
    now rewrite sextet_alphabet. }
  assert (Hp : pad < 128 /\ (pad = pad \/ sextet pad <> None)) by (split; [reflexivity|now left]).
  induction content as [|a|a b|a b c rest IH] using list_by_threes.
  - constructor.
  - pose proof (Byte.to_N_bounded a).
    cbn [b64encode]. do 2 (constructor; [apply Ha; div_lia|]).
    do 2 (constructor; [exact Hp|]). constructor.
  - pose proof (Byte.to_N_bounded a). pose proof (Byte.to_N_bounded b).
    cbn [b64encode]. do 3 (constructor; [apply Ha; div_lia|]).
    constructor; [exact Hp|]. constructor.
  - pose proof (Byte.to_N_bounded a). pose proof (Byte.to_N_bounded b).
    pose proof (Byte.to_N_bounded c).
    cbn [b64encode app]. do 4 (constructor; [apply Ha; div_lia|]). exact IH.
Qed.

(** X22. The encoding loses nothing: decoding the text gives the bytes
    back, so two images [get_base64_image] returns the same text for
    hold the same bytes. *)
Theorem base64_round_trip content :
  decode (b64encode content) = Some content
  /\ forall disk path path' other s,
       disk !! path = Some (Bytes content) ->
       disk !! path' = Some (Bytes other) ->
       fst (get_base64_image path disk) = Normal s ->
       fst (get_base64_image path' disk) = Normal s ->
       other = content.
Proof.
  assert (Hd : forall bs, decode (b64encode bs) = Some bs).
  { intros bs. unfold decode. apply b64decode_encode.
    pose proof (encode_length bs) as Hl.
    pose proof (Nat.div_mod_eq (length bs + 2) 3) as Hq.
    pose proof (Nat.mod_upper_bound (length bs + 2) 3 ltac:(lia)) as Hr.
    lia. }
  split; [apply Hd|].
  intros disk path path' other s Hp Hp' Hs Hs'.
  unfold get_base64_image, bind, read_bytes in Hs, Hs'. rewrite Hp in Hs. rewrite Hp' in Hs'.
  cbn in Hs, Hs'. injection Hs as <-. injection Hs' as Hs'.
  pose proof (Hd other) as Ho. rewrite Hs', Hd in Ho. now injection Ho as ->.
Qed.

End ImageFacts.

(** * The further properties at concrete inputs *)

Section MoreInstances.

Import Build Resolver Props Cases Sample Artifact.

(** The config file of a checkout after a run that writes. *)
Lemma build_touches_only_output_witness :
  files (snd (main root (checkout valid_text))) !! CONFIG_PATH root = Some (File valid_text)
  /\ files (snd (main root (checkout valid_text))) !! "/etc/passwd"%string = None.
Proof.
  split.
  - rewrite (build_touches_only_output root (checkout valid_text) (CONFIG_PATH root));
      [vm_compute; reflexivity|].
    intros H. vm_compute in H. discriminate H.
  - rewrite (build_touches_only_output root (checkout valid_text) "/etc/passwd");
      [vm_compute; reflexivity|].
    intros H. vm_compute in H. discriminate H.
Defined.

(** A checkout without its stylesheet. *)
Lemma stylesheet_failure_stops_first_witness :
  build root checkout_without_css =
    (Throw (FileNotFoundError (CSS_PATH root)),
     World (files checkout_without_css) (preamble root) ∅ cpython)
  /\ fst (main root checkout_without_css) = 1%Z.
Proof. exact (stylesheet_failure_stops_first root checkout_without_css eq_refl). Defined.

(** A checkout without its third module: three modules are announced. *)
Lemma module_failure_stops_at_first_witness :
  build_with root js_files checkout_without_client =
    (Throw (FileNotFoundError (path_join (JS_DIR root) "kbase-client.js")),
     World (files checkout_without_client)
       (preamble root ++ [config_line root]
        ++ map bundling_line ["config-schema.js"; "transformers.js"; "kbase-client.js"]%string)
       ∅ cpython).
Proof.
  exact (module_failure_stops_at_first root js_files "kbase-client.js"
           checkout_without_client eq_refl eq_refl eq_refl).
Defined.

(** A session without parameter over the default [{"a":1}]. *)
Lemma default_used_without_url_witness :
  let p := loaded JSON_parse_js valid_config None fetch_404 render_resolves in
  constructed p = [valid_config] /\ state_of p = rendering
  /\ app_rendered p = Some valid_config.
Proof.
  destruct (default_used_without_url JSON_parse_js valid_config fetch_404 render_resolves
              eq_refl) as (H1 & _ & _ & H2 & _).
  destruct (H2 eq_refl) as (H3 & _ & H4 & _).
  repeat split; assumption.
Defined.

(** After a render: a file that does not parse, a timer tick, and a
    paste the engine rejects. *)
Lemma rendering_is_permanent_witness :
  state_of
    (run JSON_parse_js
       [ drop [readable invalid_text] render_resolves; timeout;
         load_json_click valid_text (render_rejects schema_error) ]
       (snd (initApp render_resolves valid_config initial_page)))
  = rendering.
Proof.
  exact (rendering_is_permanent JSON_parse_js
           [ drop [readable invalid_text] render_resolves; timeout;
             load_json_click valid_text (render_rejects schema_error) ]
           (snd (initApp render_resolves valid_config initial_page)) eq_refl).
Defined.

(** An error on the setup surface, then a paste that renders. *)
Lemma error_is_never_cleared_witness :
  let p :=
    run JSON_parse_js [load_json_click valid_text render_resolves; timeout]
      (shows (txt "Invalid JSON file") initial_page) in
  errorMsg_display p = display_block /\ state_of p = rendering
  /\ errorMsg_textContent p = txt "Invalid JSON file".
Proof.
  split; [|split; reflexivity].
  exact (error_is_never_cleared JSON_parse_js
           [load_json_click valid_text render_resolves; timeout]
           (shows (txt "Invalid JSON file") initial_page) eq_refl).
Defined.

(** A drop whose first file cannot be read, before one that could. *)
Lemma nothing_to_read_is_silent_witness :
  handle JSON_parse_js (dragged initial_page)
    (drop [unreadable; readable valid_text] render_resolves) = initial_page
  /\ handle JSON_parse_js initial_page (change [] render_resolves) = initial_page.
Proof.
  destruct (nothing_to_read_is_silent JSON_parse_js [unreadable; readable valid_text]
              render_resolves (dragged initial_page) eq_refl) as (H1 & _).
  destruct (nothing_to_read_is_silent JSON_parse_js [] render_resolves initial_page eq_refl)
    as (_ & H2).
  split; assumption.
Defined.

(** A checkout whose output file cannot be opened for writing: every
    input is read, the exception of [open] ends the run with status 1,
    and the line of success is not printed. *)
Example unwritable_output_exits_with_1 :
  main root checkout_read_only =
    (1%Z,
     World (files checkout_read_only)
       (preamble root ++ [config_line root] ++ map bundling_line js_files)
       {[ OUTPUT_FILE root ]} cpython)
  /\ build root checkout_read_only =
       (Throw (WriteError (OUTPUT_FILE root)), snd (main root checkout_read_only)).
Proof. split; vm_compute; reflexivity. Qed.

(** The image of five bytes. *)
Example get_base64_image_logo :
  Images.get_base64_image logo_path media = (Normal (txt "iVBORw0="), media)
  /\ Images.decode (txt "iVBORw0=") = Some logo
  /\ fst (Images.get_base64_image "/srv/viewer/none.png" media)
     = Throw (FileNotFoundError "/srv/viewer/none.png").
Proof. repeat split; vm_compute; reflexivity. Qed.

End MoreInstances.
